(** * Mini_Library: the circulation rules of [library_manager.py]

    A shallow embedding of [LibraryManager] (books, readers, loans, fines)
    and the properties its specification states about it.

    Conventions of the model:
    - a Python [str] is a [string] whose characters are the code points
      below 256; [strip], [lower] and [in] act on them as CPython does on
      that range ([str.lower()] is not a map of single characters beyond
      it: [Unicode] gives [search_books] over a wider alphabet);
    - a [datetime.date] is its proleptic Gregorian ordinal
      ([date.toordinal()]), between [MINORD] and [MAXORD];
    - a Python [float] is a binary64 primitive float;
    - a [dict] is an association list in insertion order without repeated
      keys ([Dict]);
    - [Loan] objects live in a store ([heap]) and are named by their
      address, because the active-loan index and the history share them;
    - a method is a function in the state-and-exception monad [M]: the
      state that an exception leaves behind is part of the result. *)

From Stdlib Require Import ZArith Ascii Floats.
From stdpp Require Import base decidable option list strings.

Open Scope Z_scope.

(** ** Python strings *)

Module Str.

(** [str.isspace] for one character, code points below 256. *)
Definition isspace (c : ascii) : bool :=
  let n := N_of_ascii c in
  ((9 <=? n) && (n <=? 13) || (28 <=? n) && (n <=? 32)
   || (n =? 133) || (n =? 160))%N.

Fixpoint lstrip (s : string) : string :=
  match s with
  | EmptyString => EmptyString
  | String c s' => if isspace c then lstrip s' else s
  end.

Fixpoint rstrip (s : string) : string :=
  match s with
  | EmptyString => EmptyString
  | String c s' =>
      match rstrip s' with
      | EmptyString => if isspace c then EmptyString else String c EmptyString
      | r => String c r
      end
  end.

(** [str.strip()] *)
Definition strip (s : string) : string := rstrip (lstrip s).

(** [str.lower] for one character: A-Z and the Latin-1 capitals
    (0xC0-0xDE but for the multiplication sign 0xD7) move up by 32. *)
Definition lower_char (c : ascii) : ascii :=
  let n := N_of_ascii c in
  if ((65 <=? n) && (n <=? 90)
      || (192 <=? n) && (n <=? 222) && negb (n =? 215))%N
  then ascii_of_N (n + 32) else c.

(** [str.lower()] on a string of code points below 256, where it lowers
    each character by itself. *)
Fixpoint lower (s : string) : string :=
  match s with
  | EmptyString => EmptyString
  | String c s' => String (lower_char c) (lower s')
  end.

(** [t.startswith(q)] *)
Fixpoint startswith (q t : string) : bool :=
  match q, t with
  | EmptyString, _ => true
  | String a q', String b t' => bool_decide (a = b) && startswith q' t'
  | String _ _, EmptyString => false
  end.

(** [q in t] *)
Fixpoint contains (q t : string) : bool :=
  startswith q t ||
  match t with
  | EmptyString => false
  | String _ t' => contains q t'
  end.

(** A string that does not begin with a space. *)
Definition no_lead (s : string) : Prop :=
  match s with
  | EmptyString => True
  | String c _ => isspace c = false
  end.

(** What the words say: [q] occurs in [t] as a substring. *)
Definition Substring (q t : string) : Prop :=
  exists pre suf : string, t = pre +:+ q +:+ suf.


End Str.

(** ** Dates *)

Abbreviation date := Z (only parsing).

(** [date.min.toordinal()] and [date.max.toordinal()] *)
Definition MINORD : Z := 1.
Definition MAXORD : Z := 3652059.

Definition valid_date (d : date) : Prop := MINORD <= d <= MAXORD.

Module Date.

Definition is_leap (y : Z) : bool :=
  (y mod 4 =? 0) && (negb (y mod 100 =? 0) || (y mod 400 =? 0)).

Definition days_in_month (y m : Z) : Z :=
  if m =? 2 then (if is_leap y then 29 else 28)
  else if (m =? 4) || (m =? 6) || (m =? 9) || (m =? 11) then 30
  else 31.

Definition days_before_year (y : Z) : Z :=
  let y' := y - 1 in y' * 365 + y' / 4 - y' / 100 + y' / 400.

Definition days_before_month (y m : Z) : Z :=
  fold_right Z.add 0
    (map (days_in_month y) (map Z.of_nat (seq 1 (Z.to_nat (m - 1))))).

(** [date(y, m, d)]: [None] stands for the [ValueError] of a date that
    does not exist. *)
Definition ymd (y m d : Z) : option date :=
  if (1 <=? y) && (y <=? 9999) && (1 <=? m) && (m <=? 12)
     && (1 <=? d) && (d <=? days_in_month y m)
  then Some (days_before_year y + days_before_month y m + d)
  else None.

(** [d + timedelta(days=n)]: [None] stands for [OverflowError], raised
    by [timedelta] when [|n| > 999999999] and by the sum when it leaves
    the range of [date]. *)
Definition add_days (d : date) (n : Z) : option date :=
  if (Z.abs n <=? 999999999) && (MINORD <=? d + n) && (d + n <=? MAXORD)
  then Some (d + n) else None.

(** [(a - b).days] *)
Definition days_between (a b : date) : Z := a - b.

End Date.

(** ** Python floats *)

Module Float.

(** [float(z)] for a Python [int]: the nearest binary64 number. (Python
    raises [OverflowError] for an [int] beyond the range of [float]; the
    only ints converted here are differences of two dates, below 2^22,
    which convert exactly.) *)
Definition of_int (z : Z) : float :=
  SF2Prim (binary_normalize prec emax z 0 false).

(** The integer nearest to [n / d] for [0 < d], ties going to the even
    one. *)
Definition div_half_even (n d : Z) : Z :=
  let q := n / d in
  match 2 * (n mod d) ?= d with
  | Lt => q
  | Gt => q + 1
  | Eq => if Z.even q then q else q + 1
  end.

(** The binary64 number nearest to [(-1)^s * n / d], for [0 < n] and
    [0 < d]: the quotient is taken with eleven bits more than the format
    holds and a sticky bit, then rounded once, to nearest and ties to
    even, with the sign [s]. *)
Definition of_ratio (s : bool) (n d : Z) : float :=
  let k := Z.max 0 (64 + Z.log2 d - Z.log2 n) in
  let m := Z.shiftl n k / d in
  let sticky := if Z.shiftl n k mod d =? 0 then 0 else 1 in
  let mantissa := 2 * m + sticky in
  SF2Prim (binary_normalize prec emax
             (if s then - mantissa else mantissa) (- k - 1) s).

(** [round(x, 2)]: CPython writes [x] in decimal with two digits after
    the point, exactly rounded half to even, and reads that decimal back
    as the nearest float; zeros, infinities and nan are returned as they
    are. *)
Definition round2 (x : float) : float :=
  match Prim2SF x with
  | S754_finite s m e =>
      let hundredths :=
        if 0 <=? e then Z.pos m * 2 ^ e * 100
        else div_half_even (Z.pos m * 100) (2 ^ (- e)) in
      if hundredths =? 0 then (if s then (-0)%float else 0%float)
      else of_ratio s hundredths 100
  | _ => x
  end.

End Float.

(** ** Dictionaries *)

(** A Python [dict]: keys in insertion order, none repeated. *)
Definition dict (K V : Type) : Type := list (K * V).

Module Dict.
Section Dict.
Context {K V : Type} `{EqDecision K}.

(** [d.get(k)] *)
Fixpoint get (k : K) (d : dict K V) : option V :=
  match d with
  | [] => None
  | (k', v) :: d' => if decide (k = k') then Some v else get k d'
  end.

(** [k in d] *)
Definition mem (k : K) (d : dict K V) : bool :=
  match get k d with Some _ => true | None => false end.

(** [d[k] = v]: a key that is present keeps its place, a new one goes
    last. *)
Fixpoint set (k : K) (v : V) (d : dict K V) : dict K V :=
  match d with
  | [] => [(k, v)]
  | (k', v') :: d' =>
      if decide (k = k') then (k, v) :: d' else (k', v') :: set k v d'
  end.

(** [del d[k]] for a key that is present. *)
Fixpoint del (k : K) (d : dict K V) : dict K V :=
  match d with
  | [] => []
  | (k', v') :: d' =>
      if decide (k = k') then d' else (k', v') :: del k d'
  end.

(** [d.keys()] and [d.values()] *)
Definition keys (d : dict K V) : list K := fst <$> d.
Definition values (d : dict K V) : list V := snd <$> d.

(** How many keys satisfy [p]. *)
Definition count (p : K -> bool) (d : dict K V) : Z :=
  Z.of_nat (length (List.filter p (keys d))).

End Dict.
End Dict.

(** ** The domain objects *)

Module Book.
Record t : Type := make {
  book_id : string;
  title : string;
  author : string;
  total_copies : Z;
  available_copies : Z
}.

Definition with_available_copies (n : Z) (b : t) : t :=
  make (book_id b) (title b) (author b) (total_copies b) n.
End Book.

Module Reader.
Record t : Type := make {
  reader_id : string;
  full_name : string
}.
End Reader.

Module Loan.
Record t : Type := make {
  book_id : string;
  reader_id : string;
  borrow_date : date;
  due_date : date;
  returned_date : option date
}.

Definition is_active (l : t) : bool :=
  match returned_date l with None => true | Some _ => false end.

Definition with_returned_date (d : option date) (l : t) : t :=
  make (book_id l) (reader_id l) (borrow_date l) (due_date l) d.
End Loan.

(** The address of a [Loan] object in the store. *)
Abbreviation ref := nat (only parsing).

(** ** Exceptions *)

(** The four subclasses of [LibraryError]. *)
Inductive ErrorKind : Type :=
  | ValidationError
  | NotFoundError
  | AlreadyExistsError
  | BusinessRuleError.

Inductive exn : Type :=
  | Raise (kind : ErrorKind) (message : string)
      (** a [LibraryError] of the given subclass *)
  | OverflowError
      (** from [date + timedelta] *)
  | KeyError
      (** from [self.books[...]] *)
  | Dangling.
      (** an address that names no object; no Python state has one *)

#[global] Instance ErrorKind_eq_dec : EqDecision ErrorKind.
Proof. solve_decision. Defined.

(** ** The manager and its methods *)

Record LibraryManager : Type := mkLibraryManager {
  fine_per_day : float;
  books : dict string Book.t;
  readers : dict string Reader.t;
  _active_loans : dict (string * string) ref;
  _loan_history : list ref;
  heap : list Loan.t
}.

Definition set_books (f : dict string Book.t -> dict string Book.t)
    (s : LibraryManager) : LibraryManager :=
  mkLibraryManager (fine_per_day s) (f (books s)) (readers s)
    (_active_loans s) (_loan_history s) (heap s).

Definition set_readers (f : dict string Reader.t -> dict string Reader.t)
    (s : LibraryManager) : LibraryManager :=
  mkLibraryManager (fine_per_day s) (books s) (f (readers s))
    (_active_loans s) (_loan_history s) (heap s).

Definition set_active_loans
    (f : dict (string * string) ref -> dict (string * string) ref)
    (s : LibraryManager) : LibraryManager :=
  mkLibraryManager (fine_per_day s) (books s) (readers s)
    (f (_active_loans s)) (_loan_history s) (heap s).

Definition set_loan_history (f : list ref -> list ref)
    (s : LibraryManager) : LibraryManager :=
  mkLibraryManager (fine_per_day s) (books s) (readers s)
    (_active_loans s) (f (_loan_history s)) (heap s).

Definition set_heap (f : list Loan.t -> list Loan.t)
    (s : LibraryManager) : LibraryManager :=
  mkLibraryManager (fine_per_day s) (books s) (readers s)
    (_active_loans s) (_loan_history s) (f (heap s)).

(** The outcome of a call. *)
Inductive Result (A : Type) : Type :=
  | Ok (a : A)
  | Err (e : exn).
Arguments Ok {A} a.
Arguments Err {A} e.

(** A method body: from the state before the call to the outcome and the
    state after it, also when the outcome is an exception. *)
Definition M (A : Type) : Type := LibraryManager -> Result A * LibraryManager.

Definition ret {A} (a : A) : M A := fun s => (Ok a, s).

Definition raise {A} (e : exn) : M A := fun s => (Err e, s).

Definition bind {A B} (m : M A) (k : A -> M B) : M B :=
  fun s =>
    match m s with
    | (Ok a, s') => k a s'
    | (Err e, s') => (Err e, s')
    end.

Definition gets {A} (f : LibraryManager -> A) : M A := fun s => (Ok (f s), s).

Definition modify (f : LibraryManager -> LibraryManager) : M unit :=
  fun s => (Ok tt, f s).

Declare Scope py_scope.
Delimit Scope py_scope with py.
Notation "x <- m ;; k" := (bind m (fun x => k))
  (at level 100, m at next level, right associativity) : py_scope.
Notation "m ;; k" := (bind m (fun _ => k))
  (at level 100, right associativity) : py_scope.
Open Scope py_scope.

(** [LibraryManager(fine_per_day)]: the test [fine_per_day < 0] is false
    for nan and for [+inf], which are therefore accepted as rates. *)
Definition __init__ (fine_per_day : float) : Result LibraryManager :=
  if (fine_per_day <? 0)%float
  then Err (Raise ValidationError "fine_per_day must be non-negative")
  else Ok (mkLibraryManager fine_per_day [] [] [] [] []).

Definition _require_non_empty (value field_name : string) : M string :=
  let normalized := Str.strip value in
  if decide (normalized = "")
  then raise (Raise ValidationError (field_name +:+ " must be non-empty"))
  else ret normalized.

Definition add_book (book_id title author : string) (total_copies : Z)
    : M Book.t :=
  book_id <- _require_non_empty book_id "book_id" ;;
  title <- _require_non_empty title "title" ;;
  author <- _require_non_empty author "author" ;;
  if total_copies <=? 0
  then raise (Raise ValidationError "total_copies must be greater than 0")
  else
    bs <- gets books ;;
    if Dict.mem book_id bs
    then raise (Raise AlreadyExistsError
                  ("Book with id '" +:+ book_id +:+ "' already exists"))
    else
      let book := Book.make book_id title author total_copies total_copies in
      modify (set_books (Dict.set book_id book)) ;;
      ret book.

Definition register_reader (reader_id full_name : string) : M Reader.t :=
  reader_id <- _require_non_empty reader_id "reader_id" ;;
  full_name <- _require_non_empty full_name "full_name" ;;
  rs <- gets readers ;;
  if Dict.mem reader_id rs
  then raise (Raise AlreadyExistsError
                ("Reader with id '" +:+ reader_id +:+ "' already exists"))
  else
    let reader := Reader.make reader_id full_name in
    modify (set_readers (Dict.set reader_id reader)) ;;
    ret reader.

(** A [Book] object is held by one entry of [self.books] and by nothing
    else in the manager, so the key of that entry names the object:
    [get_book] gives the key it found the object under together with the
    fields it read. *)
Definition get_book (book_id : string) : M (string * Book.t) :=
  book_id <- _require_non_empty book_id "book_id" ;;
  bs <- gets books ;;
  match Dict.get book_id bs with
  | Some book => ret (book_id, book)
  | None =>
      raise (Raise NotFoundError
               ("Book with id '" +:+ book_id +:+ "' not found"))
  end.

Definition get_reader (reader_id : string) : M Reader.t :=
  reader_id <- _require_non_empty reader_id "reader_id" ;;
  rs <- gets readers ;;
  match Dict.get reader_id rs with
  | Some reader => ret reader
  | None =>
      raise (Raise NotFoundError
               ("Reader with id '" +:+ reader_id +:+ "' not found"))
  end.

(** The test of the comprehension in [search_books]. *)
Definition matches (normalized_query : string) (book : Book.t) : bool :=
  Str.contains normalized_query (Str.lower (Book.title book))
  || Str.contains normalized_query (Str.lower (Book.author book)).

Definition search_books (query : string) : M (list Book.t) :=
  query <- _require_non_empty query "query" ;;
  let normalized_query := Str.lower query in
  bs <- gets books ;;
  ret (List.filter (matches normalized_query) (Dict.values bs)).

Definition borrow_book (book_id reader_id : string) (borrow_date : date)
    (loan_days : Z) : M ref :=
  if loan_days <=? 0
  then raise (Raise ValidationError "loan_days must be greater than 0")
  else
    book <- get_book book_id ;;
    get_reader reader_id ;;
    if Book.available_copies (snd book) <=? 0
    then raise (Raise BusinessRuleError "No available copies for this book")
    else
      let key := (Book.book_id (snd book), reader_id) in
      act <- gets _active_loans ;;
      if Dict.mem key act
      then raise (Raise BusinessRuleError
                    "Reader already has this book on loan")
      else
        match Date.add_days borrow_date loan_days with
        | None => raise OverflowError
        | Some due_date =>
            loan <- gets (fun s => length (heap s)) ;;
            modify (set_heap (fun h =>
              h ++ [Loan.make (Book.book_id (snd book)) reader_id
                      borrow_date due_date None])) ;;
            modify (set_active_loans (Dict.set key loan)) ;;
            modify (set_loan_history (fun h => h ++ [loan])) ;;
            modify (set_books (Dict.set (fst book)
              (Book.with_available_copies
                 (Book.available_copies (snd book) - 1) (snd book)))) ;;
            ret loan
        end.

(** The dictionary that [return_book] returns. *)
Record ReturnInfo : Type := mkReturnInfo {
  overdue_days : Z;
  fine_amount : float
}.

(** Reading a field of the object at an address. *)
Definition load (loan : ref) : M Loan.t :=
  h <- gets heap ;;
  match h !! loan with
  | Some l => ret l
  | None => raise Dangling
  end.

Definition return_book (book_id reader_id : string) (return_date : date)
    : M ReturnInfo :=
  book_id <- _require_non_empty book_id "book_id" ;;
  reader_id <- _require_non_empty reader_id "reader_id" ;;
  let key := (book_id, reader_id) in
  act <- gets _active_loans ;;
  match Dict.get key act with
  | None =>
      raise (Raise BusinessRuleError
               "Active loan for this book and reader was not found")
  | Some loan =>
      l <- load loan ;;
      modify (set_heap
                (<[loan := Loan.with_returned_date (Some return_date) l]>)) ;;
      bs <- gets books ;;
      match Dict.get (Loan.book_id l) bs with
      | None => raise KeyError
      | Some book =>
          modify (set_books (Dict.set (Loan.book_id l)
            (Book.with_available_copies
               (Book.available_copies book + 1) book))) ;;
          modify (set_active_loans (Dict.del key)) ;;
          let overdue_days :=
            Z.max (Date.days_between return_date (Loan.due_date l)) 0 in
          rate <- gets fine_per_day ;;
          let fine_amount :=
            Float.round2 (Float.of_int overdue_days * rate)%float in
          ret (mkReturnInfo overdue_days fine_amount)
      end
  end.

Definition calculate_fine (due_date return_date : date) : M float :=
  let overdue_days := Z.max (Date.days_between return_date due_date) 0 in
  rate <- gets fine_per_day ;;
  ret (Float.round2 (Float.of_int overdue_days * rate)%float).

Definition get_active_loans : M (list ref) :=
  act <- gets _active_loans ;;
  ret (Dict.values act).

Definition get_reader_active_loans (reader_id : string) : M (list ref) :=
  reader_id <- _require_non_empty reader_id "reader_id" ;;
  get_reader reader_id ;;
  act <- gets _active_loans ;;
  h <- gets heap ;;
  ret (List.filter
         (fun loan =>
            match h !! loan with
            | Some l => bool_decide (Loan.reader_id l = reader_id)
            | None => false
            end)
         (Dict.values act)).

Definition get_loan_history : M (list ref) :=
  hist <- gets _loan_history ;;
  ret hist.

(** ** Sequences of calls *)

(** A call of a public method. *)
Inductive Op : Type :=
  | AddBook (book_id title author : string) (total_copies : Z)
  | RegisterReader (reader_id full_name : string)
  | GetBook (book_id : string)
  | GetReader (reader_id : string)
  | SearchBooks (query : string)
  | BorrowBook (book_id reader_id : string) (borrow_date : date)
      (loan_days : Z)
  | ReturnBook (book_id reader_id : string) (return_date : date)
  | CalculateFine (due_date return_date : date)
  | GetActiveLoans
  | GetReaderActiveLoans (reader_id : string)
  | GetLoanHistory.

(** The value of an outcome, if it has one. *)
Definition value_of {A} (r : Result A) : option A :=
  match r with Ok a => Some a | Err _ => None end.

(** What is left of an outcome when the value is dropped. *)
Definition raised {A} (r : Result A) : option exn :=
  match r with Ok _ => None | Err e => Some e end.

(** A call: the exception it raises, if any, and the state it leaves. *)
Definition call (op : Op) (s : LibraryManager) : option exn * LibraryManager :=
  let forget {A} (r : Result A * LibraryManager) := (raised (fst r), snd r) in
  match op with
  | AddBook b t a n => forget (add_book b t a n s)
  | RegisterReader r n => forget (register_reader r n s)
  | GetBook b => forget (get_book b s)
  | GetReader r => forget (get_reader r s)
  | SearchBooks q => forget (search_books q s)
  | BorrowBook b r d n => forget (borrow_book b r d n s)
  | ReturnBook b r d => forget (return_book b r d s)
  | CalculateFine d1 d2 => forget (calculate_fine d1 d2 s)
  | GetActiveLoans => forget (get_active_loans s)
  | GetReaderActiveLoans r => forget (get_reader_active_loans r s)
  | GetLoanHistory => forget (get_loan_history s)
  end.

Definition exec (op : Op) (s : LibraryManager) : LibraryManager :=
  snd (call op s).

(** The calls of a list, one after the other, whatever each one raises. *)
Definition run (ops : list Op) (s : LibraryManager) : LibraryManager :=
  fold_left (fun s op => exec op s) ops s.

(** The manager that [__init__] builds. *)
Definition fresh (rate : float) : LibraryManager :=
  mkLibraryManager rate [] [] [] [] [].

(** The states a program can bring a manager to through its methods. *)
Inductive reachable : LibraryManager -> Prop :=
  | reachable_init rate s :
      __init__ rate = Ok s -> reachable s
  | reachable_call op s :
      reachable s -> reachable (exec op s).

(** The kind of a [LibraryError], for an exception that is one. *)
Definition kind_of (e : exn) : option ErrorKind :=
  match e with Raise k _ => Some k | _ => None end.

(** ** Observations on a state *)

(** The [Loan] objects of the active-loan index, in its order. *)
Definition active_loans (s : LibraryManager) : list Loan.t :=
  omap (fun loan => heap s !! loan) (Dict.values (_active_loans s)).

(** How many active loans are loans of the book [book_id]. *)
Definition active_loans_of_book (book_id : string) (s : LibraryManager) : Z :=
  Z.of_nat (length (List.filter
    (fun l => bool_decide (Loan.book_id l = book_id)) (active_loans s))).

(** The pair of ids of a loan, as the specification compares them. *)
Definition trimmed_pair (l : Loan.t) : string * string :=
  (Str.strip (Loan.book_id l), Str.strip (Loan.reader_id l)).

(** No two active loans are loans of one book to one reader. *)
Definition one_active_loan_per_pair (s : LibraryManager) : Prop :=
  forall (i j : nat) (li lj : Loan.t),
    active_loans s !! i = Some li ->
    active_loans s !! j = Some lj ->
    trimmed_pair li = trimmed_pair lj ->
    i = j.

(** A call that lends the book [kb] to the reader [kr], the ids compared
    after trimming. *)
Definition borrows_pair (kb kr : string) (op : Op) : Prop :=
  match op with
  | BorrowBook b r _ _ => Str.strip b = kb /\ Str.strip r = kr
  | _ => False
  end.

(** ** The state invariant *)

Record wf (s : LibraryManager) : Prop := mk_wf {
  wf_books_nodup : NoDup (Dict.keys (books s));
  wf_active_nodup : NoDup (Dict.keys (_active_loans s));
  wf_book : forall k b,
    Dict.get k (books s) = Some b ->
    Book.book_id b = k /\
    0 <= Book.available_copies b /\
    Book.available_copies b
      + Dict.count (fun key => bool_decide (fst key = k)) (_active_loans s)
      = Book.total_copies b;
  wf_active : forall key loan,
    Dict.get key (_active_loans s) = Some loan ->
    exists l,
      heap s !! loan = Some l /\
      Loan.book_id l = fst key /\
      Loan.reader_id l = snd key /\
      Loan.returned_date l = None /\
      is_Some (Dict.get (fst key) (books s));
  wf_history : _loan_history s = seq 0 (length (heap s))
}.

(** ** The order of the book collection *)


(** ** The fixture of the test suite *)

Definition setUp_calls : list Op :=
  [AddBook "B1" "Clean Code" "Robert Martin" 2;
   AddBook "B2" "The Pragmatic Programmer" "Andrew Hunt" 1;
   RegisterReader "R1" "Ivan Petrov";
   RegisterReader "R2" "Anna Sidorova"].

Definition setUp : LibraryManager := run setUp_calls (fresh 10).

(** ** The states that successful calls leave *)

(** The state a successful [borrow_book] leaves. *)
Definition borrowed (slot : string) (book : Book.t) (reader_id : string)
    (borrow_date due_date : date) (s : LibraryManager) : LibraryManager :=
  mkLibraryManager (fine_per_day s)
    (Dict.set slot
       (Book.with_available_copies (Book.available_copies book - 1) book)
       (books s))
    (readers s)
    (Dict.set (Book.book_id book, reader_id) (length (heap s))
       (_active_loans s))
    (_loan_history s ++ [length (heap s)])
    (heap s ++ [Loan.make (Book.book_id book) reader_id borrow_date
                  due_date None]).

(** The state a successful [return_book] leaves. *)
Definition returned (key : string * string) (loan : ref) (l : Loan.t)
    (book : Book.t) (return_date : date) (s : LibraryManager)
    : LibraryManager :=
  mkLibraryManager (fine_per_day s)
    (Dict.set (Loan.book_id l)
       (Book.with_available_copies (Book.available_copies book + 1) book)
       (books s))
    (readers s)
    (Dict.del key (_active_loans s))
    (_loan_history s)
    (<[loan := Loan.with_returned_date (Some return_date) l]> (heap s)).

(** ** The fine, in the words of the specification *)

(** [overdue_days = max(0, days(return_date - due_date))] *)
Definition overdue_days_spec (due_date return_date : date) : Z :=
  Z.max 0 (return_date - due_date).

(** [round(overdue_days * fine_per_day, 2)] *)
Definition fine_spec (rate : float) (due_date return_date : date) : float :=
  Float.round2 (Float.of_int (overdue_days_spec due_date return_date) * rate).

(** ** Further observations *)

(** A string of whitespace only. *)
Fixpoint all_space (s : string) : bool :=
  match s with
  | EmptyString => true
  | String c s' => Str.isspace c && all_space s'
  end.

Definition first_char (s : string) : option ascii :=
  match s with
  | EmptyString => None
  | String c _ => Some c
  end.

Fixpoint last_char (s : string) : option ascii :=
  match s with
  | EmptyString => None
  | String c EmptyString => Some c
  | String _ s' => last_char s'
  end.

(** A string as [_require_non_empty] returns them: not empty, and with no
    whitespace at either end. *)
Definition normalized (s : string) : Prop :=
  s <> ""
  /\ (forall c, first_char s = Some c -> Str.isspace c = false)
  /\ (forall c, last_char s = Some c -> Str.isspace c = false).

(** Two [Book] values that differ at most in [available_copies]. *)
Definition same_book (b b' : Book.t) : Prop :=
  Book.book_id b' = Book.book_id b
  /\ Book.title b' = Book.title b
  /\ Book.author b' = Book.author b
  /\ Book.total_copies b' = Book.total_copies b.

(** Two [Loan] values that differ at most in [returned_date]. *)
Definition same_loan (l l' : Loan.t) : Prop :=
  Loan.book_id l' = Loan.book_id l
  /\ Loan.reader_id l' = Loan.reader_id l
  /\ Loan.borrow_date l' = Loan.borrow_date l
  /\ Loan.due_date l' = Loan.due_date l.

(** [loan.is_active] for the object at an address. *)
Definition is_active_at (s : LibraryManager) (loan : ref) : bool :=
  match heap s !! loan with
  | Some l => Loan.is_active l
  | None => false
  end.

(** The active-loan index lists the loans of the history that are active,
    in the order of the history. *)
Definition active_in_history (s : LibraryManager) : Prop :=
  Dict.values (_active_loans s)
  = List.filter (is_active_at s) (_loan_history s).

(** What [add_book] and [register_reader] store: normalized strings, the
    id as the key, at least one copy. *)
Definition stored_normalized (s : LibraryManager) : Prop :=
  (forall k b,
     Dict.get k (books s) = Some b ->
     Book.book_id b = k /\ normalized k /\ normalized (Book.title b)
     /\ normalized (Book.author b) /\ 0 < Book.total_copies b)
  /\ (forall k r,
        Dict.get k (readers s) = Some r ->
        Reader.reader_id r = k /\ normalized k
        /\ normalized (Reader.full_name r)).

(** Every loan names a stored book and a registered reader, and is due
    after it was borrowed. *)
Definition loans_refer_to_stored (s : LibraryManager) : Prop :=
  forall loan l,
    heap s !! loan = Some l ->
    is_Some (Dict.get (Loan.book_id l) (books s))
    /\ is_Some (Dict.get (Str.strip (Loan.reader_id l)) (readers s))
    /\ Loan.borrow_date l < Loan.due_date l.

(** ** The changes a call can make *)

(** One call changes the state in one of these ways. The last one, a
    [KeyError] after the loan was written, needs an active loan of a book
    that is not stored, which the invariant rules out. *)
Inductive transition (s : LibraryManager) : LibraryManager -> Prop :=
  | t_unchanged :
      transition s s
  | t_add_book k book :
      Dict.get k (books s) = None ->
      Book.book_id book = k ->
      normalized k ->
      normalized (Book.title book) ->
      normalized (Book.author book) ->
      0 < Book.total_copies book ->
      Book.available_copies book = Book.total_copies book ->
      transition s (set_books (Dict.set k book) s)
  | t_register_reader k reader :
      Dict.get k (readers s) = None ->
      Reader.reader_id reader = k ->
      normalized k ->
      normalized (Reader.full_name reader) ->
      transition s (set_readers (Dict.set k reader) s)
  | t_borrow slot book reader_id borrow_date due_date :
      Dict.get slot (books s) = Some book ->
      is_Some (Dict.get (Str.strip reader_id) (readers s)) ->
      0 < Book.available_copies book ->
      Dict.get (Book.book_id book, reader_id) (_active_loans s) = None ->
      borrow_date < due_date ->
      transition s (borrowed slot book reader_id borrow_date due_date s)
  | t_return key loan l book return_date :
      Dict.get key (_active_loans s) = Some loan ->
      heap s !! loan = Some l ->
      Dict.get (Loan.book_id l) (books s) = Some book ->
      transition s (returned key loan l book return_date s)
  | t_return_key_error key loan l return_date :
      Dict.get key (_active_loans s) = Some loan ->
      heap s !! loan = Some l ->
      Dict.get (Loan.book_id l) (books s) = None ->
      transition s
        (set_heap (<[loan := Loan.with_returned_date (Some return_date) l]>)
           s).

(** ** Searching beyond code points below 256 *)

(** [str.lower()] is a map of single characters on the strings of the
    manager above, whose code points are below 256. On other strings it
    is not: a capital sigma becomes the final or the medial small sigma by
    what stands around it. To see what [search_books] does there, its test
    and its body are given again over an alphabet that has, besides the
    code points below 256, the Greek letters omicron and sigma. *)
Module Unicode.

Inductive char : Type :=
  | Latin1 (c : ascii)      (** a code point below 256 *)
  | CapitalOmicron          (** U+039F *)
  | CapitalSigma            (** U+03A3 *)
  | SmallOmicron            (** U+03BF *)
  | SmallFinalSigma         (** U+03C2 *)
  | SmallSigma.             (** U+03C3 *)

#[global] Instance char_eq_dec : EqDecision char.
Proof. solve_decision. Defined.

Definition str : Type := list char.

Fixpoint of_string (s : string) : str :=
  match s with
  | EmptyString => []
  | String c s' => Latin1 c :: of_string s'
  end.

(** [str.isspace] for one character. *)
Definition isspace (c : char) : bool :=
  match c with
  | Latin1 a => Str.isspace a
  | _ => false
  end.

(** The Unicode property Cased. *)
Definition is_cased (c : char) : bool :=
  match c with
  | Latin1 a =>
      let n := N_of_ascii a in
      ((65 <=? n) && (n <=? 90) || (97 <=? n) && (n <=? 122)
       || (n =? 170) || (n =? 181) || (n =? 186)
       || (192 <=? n) && (n <=? 214) || (216 <=? n) && (n <=? 246)
       || (248 <=? n))%N
  | _ => true
  end.

(** The Unicode property Case_Ignorable. *)
Definition is_case_ignorable (c : char) : bool :=
  match c with
  | Latin1 a =>
      let n := N_of_ascii a in
      ((n =? 39) || (n =? 46) || (n =? 58) || (n =? 94) || (n =? 96)
       || (n =? 168) || (n =? 173) || (n =? 175) || (n =? 180)
       || (n =? 183) || (n =? 184))%N
  | _ => false
  end.

(** Going away from a sigma, the first character that is not
    case-ignorable is a cased one. *)
Fixpoint meets_cased (s : str) : bool :=
  match s with
  | [] => false
  | c :: s' => if is_case_ignorable c then meets_cased s' else is_cased c
  end.

(** The lower case of a character that is not a capital sigma. *)
Definition lower_char (c : char) : char :=
  match c with
  | Latin1 a => Latin1 (Str.lower_char a)
  | CapitalOmicron => SmallOmicron
  | CapitalSigma => SmallSigma
  | c => c
  end.

(** [str.lower()], with the characters already passed in [before], the
    nearest first: a capital sigma after a cased letter and not before
    one becomes the final sigma. *)
Fixpoint lower_from (before s : str) : str :=
  match s with
  | [] => []
  | c :: s' =>
      match c with
      | CapitalSigma =>
          if meets_cased before && negb (meets_cased s')
          then SmallFinalSigma else SmallSigma
      | _ => lower_char c
      end :: lower_from (c :: before) s'
  end.

Definition lower (s : str) : str := lower_from [] s.

Fixpoint lstrip (s : str) : str :=
  match s with
  | [] => []
  | c :: s' => if isspace c then lstrip s' else s
  end.

Fixpoint rstrip (s : str) : str :=
  match s with
  | [] => []
  | c :: s' =>
      match rstrip s' with
      | [] => if isspace c then [] else [c]
      | r => c :: r
      end
  end.

(** [str.strip()] *)
Definition strip (s : str) : str := rstrip (lstrip s).

(** [t.startswith(q)] *)
Fixpoint startswith (q t : str) : bool :=
  match q, t with
  | [], _ => true
  | a :: q', b :: t' => bool_decide (a = b) && startswith q' t'
  | _ :: _, [] => false
  end.

(** [q in t] *)
Fixpoint contains (q t : str) : bool :=
  startswith q t ||
  match t with
  | [] => false
  | _ :: t' => contains q t'
  end.

Record Book : Type := mkBook {
  book_id : str;
  title : str;
  author : str;
  total_copies : Z;
  available_copies : Z
}.


Definition _require_non_empty (value : str) (field_name : string)
    : Result str :=
  let normalized := strip value in
  if decide (normalized = [])
  then Err (Raise ValidationError (field_name +:+ " must be non-empty"))
  else Ok normalized.

(** The test of the comprehension in [search_books]. *)
Definition matches (normalized_query : str) (book : Book) : bool :=
  contains normalized_query (lower (title book))
  || contains normalized_query (lower (author book)).

(** [search_books], as a function of the book collection, which is all it
    reads of the manager. *)
Definition search_books (query : str) (books : dict str Book)
    : Result (list Book) :=
  match _require_non_empty query "query" with
  | Err e => Err e
  | Ok query =>
      let normalized_query := lower query in
      Ok (List.filter (matches normalized_query) (Dict.values books))
  end.

(** What the words say: [q] occurs in [t] as a substring. *)
Definition Substring (q t : str) : Prop :=
  exists pre suf : str, t = pre ++ q ++ suf.



End Unicode.

(** * Properties *)

(** ** Dictionaries *)

Section DictFacts.
Context {K V : Type} `{EqDecision K}.
Implicit Types (d : dict K V) (k : K) (v : V) (p : K -> bool).

Lemma get_None_keys d k : Dict.get k d = None <-> k ∉ Dict.keys d.
Proof.
  induction d as [|[k' v'] d IH]; simpl.
  - split; [intros _; apply not_elem_of_nil | done].
  - rewrite not_elem_of_cons. case_decide as Hk.
    + split; [done | intros [? _]; done].
    + rewrite IH. split; [done | intros [_ ?]; done].
Qed.

Lemma get_Some_keys d k v : Dict.get k d = Some v -> k ∈ Dict.keys d.
Proof.
  intros Hget. destruct (decide (k ∈ Dict.keys d)) as [|Hn]; [done|].
  apply get_None_keys in Hn. congruence.
Qed.

Lemma get_Some_elem d k v : Dict.get k d = Some v -> (k, v) ∈ d.
Proof.
  induction d as [|[k' v'] d IH]; simpl; [done|].
  case_decide as Hk.
  - intros [= ->]. subst. apply list_elem_of_here.
  - intros Hget. apply list_elem_of_further. auto.
Qed.

Lemma elem_get d k v :
  NoDup (Dict.keys d) -> (k, v) ∈ d -> Dict.get k d = Some v.
Proof.
  induction d as [|[k' v'] d IH]; simpl; intros Hnd Hin.
  - by apply not_elem_of_nil in Hin.
  - apply NoDup_cons in Hnd as [Hk' Hnd].
    apply elem_of_cons in Hin as [[= -> ->]|Hin].
    + by rewrite decide_True.
    + case_decide as Hk; [|auto]. subst k'.
      exfalso. apply Hk'. apply list_elem_of_fmap. by exists (k, v).
Qed.

Lemma mem_get d k : Dict.mem k d = true <-> is_Some (Dict.get k d).
Proof.
  unfold Dict.mem. destruct (Dict.get k d); split; done.
Qed.

Lemma mem_false d k : Dict.mem k d = false <-> Dict.get k d = None.
Proof. unfold Dict.mem. by destruct (Dict.get k d). Qed.

Lemma get_set d k v k' :
  Dict.get k' (Dict.set k v d)
  = if decide (k' = k) then Some v else Dict.get k' d.
Proof.
  induction d as [|[k0 v0] d IH]; simpl.
  - by repeat case_decide.
  - destruct (decide (k = k0)) as [->|Hk]; simpl.
    + by repeat case_decide.
    + rewrite IH. repeat case_decide; congruence.
Qed.

Lemma set_present_keys d k v :
  is_Some (Dict.get k d) -> Dict.keys (Dict.set k v d) = Dict.keys d.
Proof.
  induction d as [|[k0 v0] d IH]; simpl; intros Hs.
  - by destruct Hs.
  - case_decide; simpl; [by subst|]. f_equal. auto.
Qed.

Lemma set_fresh d k v :
  Dict.get k d = None -> Dict.set k v d = d ++ [(k, v)].
Proof.
  induction d as [|[k0 v0] d IH]; simpl; [done|].
  case_decide; [done|]. intros Hget. f_equal. auto.
Qed.

Lemma NoDup_keys_set d k v :
  NoDup (Dict.keys d) -> NoDup (Dict.keys (Dict.set k v d)).
Proof.
  intros Hnd. destruct (Dict.get k d) as [v0|] eqn:Hget.
  - rewrite set_present_keys; [done | by eexists].
  - rewrite set_fresh by done. unfold Dict.keys. rewrite fmap_app. simpl.
    apply NoDup_app. split_and!; [done | | apply NoDup_singleton].
    intros x Hx ->%list_elem_of_singleton.
    by apply get_None_keys in Hget.
Qed.

Lemma del_keys_sub d k k' : k' ∈ Dict.keys (Dict.del k d) -> k' ∈ Dict.keys d.
Proof.
  induction d as [|[k0 v0] d IH]; simpl; [done|].
  case_decide; simpl.
  - apply list_elem_of_further.
  - rewrite !elem_of_cons. intros [->|Hin]; [by left | right; auto].
Qed.

Lemma NoDup_keys_del d k :
  NoDup (Dict.keys d) -> NoDup (Dict.keys (Dict.del k d)).
Proof.
  induction d as [|[k0 v0] d IH]; simpl; [done|].
  intros [Hk0 Hnd]%NoDup_cons. case_decide; simpl; [done|].
  apply NoDup_cons. split; [|auto].
  intros Hin. apply Hk0. by eapply del_keys_sub.
Qed.

Lemma get_del d k k' :
  NoDup (Dict.keys d) ->
  Dict.get k' (Dict.del k d)
  = if decide (k' = k) then None else Dict.get k' d.
Proof.
  induction d as [|[k0 v0] d IH]; simpl; intros Hnd.
  - by case_decide.
  - apply NoDup_cons in Hnd as [Hk0 Hnd].
    destruct (decide (k = k0)) as [->|Hk]; simpl.
    + repeat case_decide; try congruence.
      subst. by apply get_None_keys.
    + rewrite IH by done. repeat case_decide; congruence.
Qed.

Lemma count_nonneg p d : 0 <= Dict.count p d.
Proof. unfold Dict.count. lia. Qed.

Lemma count_set_present p d k v :
  is_Some (Dict.get k d) -> Dict.count p (Dict.set k v d) = Dict.count p d.
Proof. intros Hs. unfold Dict.count. by rewrite set_present_keys. Qed.

Lemma count_set_fresh p d k v :
  Dict.get k d = None ->
  Dict.count p (Dict.set k v d)
  = Dict.count p d + (if p k then 1 else 0).
Proof.
  intros Hget. unfold Dict.count, Dict.keys. rewrite set_fresh by done.
  rewrite fmap_app, List.filter_app, length_app. simpl.
  destruct (p k); simpl; lia.
Qed.

Lemma count_del p d k v :
  Dict.get k d = Some v ->
  Dict.count p (Dict.del k d)
  = Dict.count p d - (if p k then 1 else 0).
Proof.
  unfold Dict.count.
  induction d as [|[k0 v0] d IH]; simpl; [done|].
  case_decide as Hk.
  - intros _. subst k0. destruct (p k); simpl; lia.
  - intros Hget. simpl. destruct (p k0); simpl; rewrite ?Nat2Z.inj_succ;
      specialize (IH Hget); lia.
Qed.

Lemma count_none p d :
  (forall k, k ∈ Dict.keys d -> p k = false) -> Dict.count p d = 0.
Proof.
  unfold Dict.count.
  induction d as [|[k0 v0] d IH]; simpl; intros Hp; [done|].
  rewrite (Hp k0) by apply list_elem_of_here.
  apply IH. intros k Hk. apply Hp. by apply list_elem_of_further.
Qed.

End DictFacts.

(** ** Strings *)

Section StrFacts.
Import Str.

Lemma lstrip_no_lead s : no_lead (lstrip s).
Proof.
  induction s as [|c s IH]; simpl; [done|].
  destruct (isspace c) eqn:Hc; simpl; done.
Qed.

Lemma lstrip_fixed s : no_lead s -> lstrip s = s.
Proof. destruct s as [|c s]; simpl; [done|]. by intros ->. Qed.

Lemma rstrip_no_lead s : no_lead s -> no_lead (rstrip s).
Proof.
  destruct s as [|c s]; simpl; [done|]. intros Hc.
  destruct (rstrip s); simpl; [by rewrite Hc|done].
Qed.

Lemma rstrip_idemp s : rstrip (rstrip s) = rstrip s.
Proof.
  induction s as [|c s IH]; simpl; [done|].
  destruct (rstrip s) as [|c' r] eqn:Hr.
  - destruct (isspace c) eqn:Hc; simpl; [done|by rewrite Hc].
  - change (rstrip (String c (String c' r))) with
      (match rstrip (String c' r) with
       | EmptyString =>
           if isspace c then EmptyString else String c EmptyString
       | r' => String c r'
       end).
    by rewrite IH.
Qed.

Lemma strip_idemp s : strip (strip s) = strip s.
Proof.
  unfold strip.
  rewrite (lstrip_fixed (rstrip (lstrip s))).
  - apply rstrip_idemp.
  - apply rstrip_no_lead, lstrip_no_lead.
Qed.






End StrFacts.

(** ** The methods, call by call *)

Ltac unfold_methods :=
  unfold add_book, register_reader, get_book, get_reader, search_books,
    borrow_book, return_book, calculate_fine, get_active_loans,
    get_reader_active_loans, get_loan_history, load, _require_non_empty,
    bind, ret, raise, gets, modify in *.

(** Splits on the tests a method body is stuck on. *)
Ltac split_tests :=
  repeat (cbn beta iota delta [fst snd] in *;
          first [ case_decide | case_match ]);
  simplify_eq; try done.

Lemma require_non_empty_eq value field_name s :
  _require_non_empty value field_name s
  = if decide (Str.strip value = "")
    then (Err (Raise ValidationError (field_name +:+ " must be non-empty")), s)
    else (Ok (Str.strip value), s).
Proof. unfold_methods. by case_decide. Qed.

Lemma get_book_eq book_id s :
  get_book book_id s
  = if decide (Str.strip book_id = "")
    then (Err (Raise ValidationError "book_id must be non-empty"), s)
    else match Dict.get (Str.strip book_id) (books s) with
         | Some book => (Ok (Str.strip book_id, book), s)
         | None =>
             (Err (Raise NotFoundError
                     ("Book with id '" +:+ Str.strip book_id
                      +:+ "' not found")), s)
         end.
Proof. unfold_methods. split_tests. Qed.

Lemma get_reader_eq reader_id s :
  get_reader reader_id s
  = if decide (Str.strip reader_id = "")
    then (Err (Raise ValidationError "reader_id must be non-empty"), s)
    else match Dict.get (Str.strip reader_id) (readers s) with
         | Some reader => (Ok reader, s)
         | None =>
             (Err (Raise NotFoundError
                     ("Reader with id '" +:+ Str.strip reader_id
                      +:+ "' not found")), s)
         end.
Proof. unfold_methods. split_tests. Qed.

Lemma borrow_book_eq book_id reader_id borrow_date loan_days s :
  borrow_book book_id reader_id borrow_date loan_days s
  = if loan_days <=? 0
    then (Err (Raise ValidationError "loan_days must be greater than 0"), s)
    else if decide (Str.strip book_id = "")
    then (Err (Raise ValidationError "book_id must be non-empty"), s)
    else match Dict.get (Str.strip book_id) (books s) with
    | None =>
        (Err (Raise NotFoundError
                ("Book with id '" +:+ Str.strip book_id +:+ "' not found")),
         s)
    | Some book =>
    if decide (Str.strip reader_id = "")
    then (Err (Raise ValidationError "reader_id must be non-empty"), s)
    else match Dict.get (Str.strip reader_id) (readers s) with
    | None =>
        (Err (Raise NotFoundError
                ("Reader with id '" +:+ Str.strip reader_id
                 +:+ "' not found")), s)
    | Some _ =>
    if Book.available_copies book <=? 0
    then (Err (Raise BusinessRuleError "No available copies for this book"),
          s)
    else if Dict.mem (Book.book_id book, reader_id) (_active_loans s)
    then (Err (Raise BusinessRuleError
                 "Reader already has this book on loan"), s)
    else match Date.add_days borrow_date loan_days with
    | None => (Err OverflowError, s)
    | Some due_date =>
        (Ok (length (heap s)),
         borrowed (Str.strip book_id) book reader_id borrow_date due_date s)
    end end end.
Proof.
  unfold borrow_book, bind at 1 2.
  destruct (loan_days <=? 0); [done|].
  rewrite get_book_eq. case_decide; [done|].
  destruct (Dict.get _ (books s)) as [book|]; [|done].
  rewrite get_reader_eq. case_decide; [done|].
  destruct (Dict.get _ (readers s)); [|done].
  cbn [snd fst]. destruct (_ <=? 0); [done|].
  unfold bind, gets. destruct (Dict.mem _ _); [done|].
  destruct (Date.add_days _ _); done.
Qed.

Lemma return_book_eq book_id reader_id return_date s :
  return_book book_id reader_id return_date s
  = if decide (Str.strip book_id = "")
    then (Err (Raise ValidationError "book_id must be non-empty"), s)
    else if decide (Str.strip reader_id = "")
    then (Err (Raise ValidationError "reader_id must be non-empty"), s)
    else
    let key := (Str.strip book_id, Str.strip reader_id) in
    match Dict.get key (_active_loans s) with
    | None =>
        (Err (Raise BusinessRuleError
                "Active loan for this book and reader was not found"), s)
    | Some loan =>
    match heap s !! loan with
    | None => (Err Dangling, s)
    | Some l =>
    match Dict.get (Loan.book_id l) (books s) with
    | None =>
        (Err KeyError,
         set_heap
           (<[loan := Loan.with_returned_date (Some return_date) l]>) s)
    | Some book =>
        let overdue_days := Z.max (return_date - Loan.due_date l) 0 in
        (Ok (mkReturnInfo overdue_days
               (Float.round2 (Float.of_int overdue_days * fine_per_day s))),
         returned key loan l book return_date s)
    end end end.
Proof.
  unfold return_book, bind at 1 2.
  rewrite require_non_empty_eq. case_decide; [reflexivity|].
  rewrite require_non_empty_eq. case_decide; [reflexivity|].
  unfold load. unfold bind, gets, ret, raise, modify, Date.days_between.
  cbv zeta.
  destruct (Dict.get _ (_active_loans s)) as [loan|]; [|reflexivity].
  destruct (heap s !! loan) as [l|]; [|reflexivity].
  cbn [books set_heap].
  destruct (Dict.get _ (books s)); reflexivity.
Qed.

Lemma add_book_eq book_id title author total_copies s :
  add_book book_id title author total_copies s
  = if decide (Str.strip book_id = "")
    then (Err (Raise ValidationError "book_id must be non-empty"), s)
    else if decide (Str.strip title = "")
    then (Err (Raise ValidationError "title must be non-empty"), s)
    else if decide (Str.strip author = "")
    then (Err (Raise ValidationError "author must be non-empty"), s)
    else if total_copies <=? 0
    then (Err (Raise ValidationError "total_copies must be greater than 0"),
          s)
    else if Dict.mem (Str.strip book_id) (books s)
    then (Err (Raise AlreadyExistsError
                 ("Book with id '" +:+ Str.strip book_id
                  +:+ "' already exists")), s)
    else
      let book :=
        Book.make (Str.strip book_id) (Str.strip title) (Str.strip author)
          total_copies total_copies in
      (Ok book, set_books (Dict.set (Str.strip book_id) book) s).
Proof.
  unfold add_book, bind at 1 2.
  rewrite require_non_empty_eq. case_decide; [reflexivity|].
  unfold bind at 1. rewrite require_non_empty_eq.
  case_decide; [reflexivity|].
  unfold bind at 1. rewrite require_non_empty_eq.
  case_decide; [reflexivity|].
  destruct (total_copies <=? 0); [reflexivity|].
  unfold bind, gets. destruct (Dict.mem _ _); reflexivity.
Qed.

Lemma register_reader_eq reader_id full_name s :
  register_reader reader_id full_name s
  = if decide (Str.strip reader_id = "")
    then (Err (Raise ValidationError "reader_id must be non-empty"), s)
    else if decide (Str.strip full_name = "")
    then (Err (Raise ValidationError "full_name must be non-empty"), s)
    else if Dict.mem (Str.strip reader_id) (readers s)
    then (Err (Raise AlreadyExistsError
                 ("Reader with id '" +:+ Str.strip reader_id
                  +:+ "' already exists")), s)
    else
      let reader :=
        Reader.make (Str.strip reader_id) (Str.strip full_name) in
      (Ok reader, set_readers (Dict.set (Str.strip reader_id) reader) s).
Proof.
  unfold register_reader, bind at 1 2.
  rewrite require_non_empty_eq. case_decide; [reflexivity|].
  unfold bind at 1. rewrite require_non_empty_eq.
  case_decide; [reflexivity|].
  unfold bind, gets. destruct (Dict.mem _ _); reflexivity.
Qed.

(** The methods that only read. *)

Lemma get_book_state book_id s : snd (get_book book_id s) = s.
Proof. rewrite get_book_eq. by repeat (case_decide || case_match). Qed.

Lemma get_reader_state reader_id s : snd (get_reader reader_id s) = s.
Proof. rewrite get_reader_eq. by repeat (case_decide || case_match). Qed.

Lemma search_books_state query s : snd (search_books query s) = s.
Proof.
  unfold search_books, bind at 1. rewrite require_non_empty_eq.
  by case_decide.
Qed.

Lemma calculate_fine_state due_date return_date s :
  snd (calculate_fine due_date return_date s) = s.
Proof. reflexivity. Qed.

Lemma get_active_loans_state s : snd (get_active_loans s) = s.
Proof. reflexivity. Qed.

Lemma get_loan_history_state s : snd (get_loan_history s) = s.
Proof. reflexivity. Qed.

Lemma get_reader_active_loans_state reader_id s :
  snd (get_reader_active_loans reader_id s) = s.
Proof.
  unfold get_reader_active_loans, bind at 1. rewrite require_non_empty_eq.
  case_decide; [reflexivity|].
  unfold bind at 1. rewrite get_reader_eq.
  destruct (decide _); [reflexivity|].
  destruct (Dict.get _ _); reflexivity.
Qed.

(** ** The invariant is kept *)

Lemma wf_fresh rate : wf (fresh rate).
Proof. split; simpl; try done; apply NoDup_nil_2. Qed.

Lemma wf_active_key s key :
  wf s -> key ∈ Dict.keys (_active_loans s) ->
  is_Some (Dict.get (fst key) (books s)).
Proof.
  intros Hwf Hin.
  destruct (Dict.get key (_active_loans s)) as [loan|] eqn:Hget.
  - destruct (wf_active s Hwf key loan Hget) as (l & _ & _ & _ & _ & Hb).
    done.
  - by apply get_None_keys in Hget.
Qed.

Lemma wf_add_book s slot book :
  wf s ->
  Dict.get slot (books s) = None ->
  Book.book_id book = slot ->
  0 <= Book.total_copies book ->
  Book.available_copies book = Book.total_copies book ->
  wf (set_books (Dict.set slot book) s).
Proof.
  intros Hwf Hnew Hid Htot Hav. split; simpl.
  - apply NoDup_keys_set, Hwf.
  - apply Hwf.
  - intros k b. rewrite get_set. case_decide as Hk.
    + intros [= <-]. subst k. split_and!; [done | lia |].
      rewrite count_none; [lia|].
      intros key Hkey. apply bool_decide_eq_false. intros Hfst.
      apply (wf_active_key s key Hwf) in Hkey as [b Hb]. congruence.
    + apply Hwf.
  - intros key loan Hget.
    destruct (wf_active s Hwf key loan Hget) as (l & ? & ? & ? & ? & Hb).
    exists l. split_and!; try done.
    rewrite get_set. by case_decide.
  - apply Hwf.
Qed.

Lemma wf_register_reader s f : wf s -> wf (set_readers f s).
Proof. intros [? ? ? ? ?]. by split. Qed.

Lemma wf_borrowed s slot book reader_id borrow_date due_date :
  wf s ->
  Dict.get slot (books s) = Some book ->
  0 < Book.available_copies book ->
  Dict.get (Book.book_id book, reader_id) (_active_loans s) = None ->
  wf (borrowed slot book reader_id borrow_date due_date s).
Proof.
  intros Hwf Hbook Hav Hnew.
  destruct (wf_book s Hwf slot book Hbook) as (Hid & _ & Hsum).
  split; simpl.
  - apply NoDup_keys_set, Hwf.
  - apply NoDup_keys_set, Hwf.
  - intros k b. rewrite get_set, count_set_fresh by done. simpl.
    case_decide as Hk.
    + intros [= <-]. subst k. simpl.
      rewrite bool_decide_eq_true_2 by done. split_and!; [done | lia | lia].
    + intros Hb. rewrite bool_decide_eq_false_2 by congruence.
      rewrite Z.add_0_r. by apply Hwf.
  - intros key loan. rewrite get_set. case_decide as Hk.
    + intros [= <-]. subst key. eexists. split_and!.
      * by apply list_lookup_middle.
      * done.
      * done.
      * done.
      * simpl. rewrite get_set, Hid. by case_decide.
    + intros Hget.
      destruct (wf_active s Hwf key loan Hget) as (l & Hl & ? & ? & ? & Hb).
      exists l. split_and!; try done.
      * by apply lookup_app_l_Some.
      * rewrite get_set. by case_decide.
  - rewrite length_app, (wf_history s Hwf). simpl.
    by rewrite Nat.add_1_r, seq_S.
Qed.

Lemma wf_returned s key loan l book return_date :
  wf s ->
  Dict.get key (_active_loans s) = Some loan ->
  heap s !! loan = Some l ->
  Dict.get (Loan.book_id l) (books s) = Some book ->
  wf (returned key loan l book return_date s).
Proof.
  intros Hwf Hkey Hl Hbook.
  destruct (wf_active s Hwf key loan Hkey) as (l' & Hl' & Hb & Hr & Hact & _).
  assert (l' = l) as -> by congruence.
  destruct (wf_book s Hwf _ book Hbook) as (Hid & Hpos & Hsum).
  split; simpl.
  - apply NoDup_keys_set, Hwf.
  - apply NoDup_keys_del, Hwf.
  - intros k b. rewrite get_set, (count_del _ _ _ loan) by done.
    case_decide as Hk.
    + intros [= <-]. subst k. simpl.
      rewrite bool_decide_eq_true_2 by done. split_and!; [done | lia | lia].
    + intros Hb'. rewrite bool_decide_eq_false_2 by congruence.
      rewrite Z.sub_0_r. by apply Hwf.
  - intros key0 loan0. rewrite get_del by apply Hwf.
    case_decide as Hk; [done|]. intros Hget.
    destruct (wf_active s Hwf key0 loan0 Hget)
      as (l0 & Hl0 & Hb0 & Hr0 & Hact0 & Hbk0).
    exists l0. split_and!; try done.
    + rewrite list_lookup_insert_ne; [done|].
      intros ->. apply Hk. assert (l0 = l) as -> by congruence.
      destruct key0, key. simpl in *. congruence.
    + rewrite get_set. by case_decide.
  - rewrite length_insert. apply Hwf.
Qed.

Lemma wf_exec op s : wf s -> wf (exec op s).
Proof.
  intros Hwf. destruct op; unfold exec, call; cbn [snd fst].
  - rewrite add_book_eq.
    repeat (destruct (decide _); [done|]).
    destruct (_ <=? 0) eqn:Hn; [done|].
    destruct (Dict.mem _ _) eqn:Hm; [done|]. cbn [snd].
    apply wf_add_book; simpl; try done.
    + by apply mem_false.
    + lia.
  - rewrite register_reader_eq.
    repeat (destruct (decide _); [done|]).
    destruct (Dict.mem _ _); [done|]. apply wf_register_reader, Hwf.
  - by rewrite get_book_state.
  - by rewrite get_reader_state.
  - by rewrite search_books_state.
  - rewrite borrow_book_eq.
    destruct (_ <=? 0); [done|].
    destruct (decide _); [done|].
    destruct (Dict.get _ (books s)) as [book|] eqn:Hbook; [|done].
    destruct (decide _); [done|].
    destruct (Dict.get _ (readers s)); [|done].
    destruct (_ <=? 0) eqn:Hav; [done|].
    destruct (Dict.mem _ _) eqn:Hm; [done|].
    destruct (Date.add_days _ _); [|done]. cbn [snd].
    apply wf_borrowed; try done.
    + lia.
    + by apply mem_false.
  - rewrite return_book_eq.
    repeat (destruct (decide _); [done|]). cbv zeta.
    destruct (Dict.get _ (_active_loans s)) as [loan|] eqn:Hkey; [|done].
    destruct (heap s !! loan) as [l|] eqn:Hl; [|done].
    destruct (wf_active s Hwf _ loan Hkey) as (l' & Hl' & Hb & _ & _ & Hbk).
    assert (l' = l) as -> by congruence. simpl in Hb, Hbk.
    rewrite Hb. destruct Hbk as [book Hbook]. rewrite Hbook. cbn [snd].
    rewrite <- Hb in *. by apply wf_returned.
  - done.
  - done.
  - by rewrite get_reader_active_loans_state.
  - done.
Qed.

Lemma wf_run ops s : wf s -> wf (run ops s).
Proof.
  revert s. induction ops as [|op ops IH]; intros s Hwf; simpl; [done|].
  apply IH, wf_exec, Hwf.
Qed.

Lemma init_eq rate s : __init__ rate = Ok s -> s = fresh rate.
Proof. unfold __init__. destruct (_ <? _)%float; [done|]. by intros [= <-]. Qed.

Lemma wf_reachable s : reachable s -> wf s.
Proof.
  induction 1 as [rate s Hinit|op s _ IH].
  - apply init_eq in Hinit as ->. apply wf_fresh.
  - by apply wf_exec.
Qed.

Lemma reachable_run ops s : reachable s -> reachable (run ops s).
Proof.
  revert s. induction ops as [|op ops IH]; intros s Hs; simpl; [done|].
  apply IH. by constructor.
Qed.

(** ** Stored books and active loans *)

Lemma stored_book s book :
  wf s -> book ∈ Dict.values (books s) ->
  Dict.get (Book.book_id book) (books s) = Some book.
Proof.
  intros Hwf Hin.
  apply list_elem_of_fmap in Hin as ([k b] & -> & Hin). simpl.
  apply elem_get in Hin; [|apply Hwf].
  by destruct (wf_book s Hwf k b Hin) as (-> & _).
Qed.

Lemma active_entry s key loan :
  wf s -> (key, loan) ∈ _active_loans s ->
  exists l,
    heap s !! loan = Some l /\ Loan.book_id l = fst key
    /\ Loan.reader_id l = snd key /\ Loan.returned_date l = None.
Proof.
  intros Hwf Hin. apply elem_get in Hin; [|apply Hwf].
  destruct (wf_active s Hwf key loan Hin) as (l & ? & ? & ? & ? & _).
  by exists l.
Qed.

(** Counting the active loans of a book by their [book_id] field, as the
    words do, or by the first half of their key, as the invariant does,
    gives the same number. *)
Lemma active_loans_of_book_count s k :
  wf s ->
  active_loans_of_book k s
  = Dict.count (fun key => bool_decide (fst key = k)) (_active_loans s).
Proof.
  intros Hwf. unfold active_loans_of_book, active_loans, Dict.count.
  unfold Dict.values, Dict.keys. f_equal.
  pose proof (fun key loan => active_entry s key loan Hwf) as Hent.
  induction (_active_loans s) as [|[key loan] d IH]; [done|].
  destruct (Hent key loan) as (l & Hl & Hb & _); [apply list_elem_of_here|].
  cbn [fmap list_fmap omap list_omap fst snd List.filter].
  rewrite Hl. cbn [List.filter]. rewrite Hb.
  specialize (IH (fun key' loan' Hin' =>
    Hent key' loan' (list_elem_of_further _ _ _ Hin'))).
  destruct (bool_decide _); cbn [length]; by rewrite IH.
Qed.

(** C4: every book stored in a manager that was built by [__init__] and
    then went through any sequence of calls of its public methods (among
    them [add_book], [borrow_book] and [return_book]) has
    [0 <= available_copies <= total_copies]. *)
Theorem available_copies_within_bounds rate s0 ops book :
  __init__ rate = Ok s0 ->
  book ∈ Dict.values (books (run ops s0)) ->
  0 <= Book.available_copies book <= Book.total_copies book.
Proof.
  intros Hinit Hin.
  assert (wf (run ops s0)) as Hwf.
  { apply wf_run. apply init_eq in Hinit as ->. apply wf_fresh. }
  apply stored_book in Hin; [|done].
  destruct (wf_book _ Hwf _ _ Hin) as (_ & Hpos & Hsum).
  pose proof (count_nonneg
    (fun key : string * string =>
       bool_decide (fst key = Book.book_id book))
    (_active_loans (run ops s0))).
  lia.
Qed.

(** C10: for every book stored in a manager that was built by [__init__]
    and then went through any sequence of calls of its public methods,
    [available_copies] plus the number of active loans whose [book_id] is
    the id of the book equals [total_copies]. *)
Theorem copies_are_conserved rate s0 ops book :
  __init__ rate = Ok s0 ->
  book ∈ Dict.values (books (run ops s0)) ->
  Book.available_copies book
    + active_loans_of_book (Book.book_id book) (run ops s0)
  = Book.total_copies book.
Proof.
  intros Hinit Hin.
  assert (wf (run ops s0)) as Hwf.
  { apply wf_run. apply init_eq in Hinit as ->. apply wf_fresh. }
  apply stored_book in Hin; [|done].
  rewrite active_loans_of_book_count by done.
  by destruct (wf_book _ Hwf _ _ Hin) as (_ & _ & Hsum).
Qed.

Lemma available_copies_within_bounds_witness :
  let book := Book.make "B1" "Clean Code" "Robert Martin" 2 1 in
  let ops := setUp_calls ++ [BorrowBook "B1" "R1" 739676 7] in
  __init__ 10 = Ok (fresh 10)
  /\ book ∈ Dict.values (books (run ops (fresh 10)))
  /\ 0 <= Book.available_copies book <= Book.total_copies book.
Proof.
  intros book ops.
  assert (__init__ 10 = Ok (fresh 10)) as Hinit by reflexivity.
  assert (book ∈ Dict.values (books (run ops (fresh 10)))) as Hin
    by (vm_compute; apply list_elem_of_here).
  split; [exact Hinit | split; [exact Hin |]].
  exact (available_copies_within_bounds 10 (fresh 10) ops book Hinit Hin).
Defined.

Lemma copies_are_conserved_witness :
  let book := Book.make "B1" "Clean Code" "Robert Martin" 2 1 in
  let ops := setUp_calls ++ [BorrowBook "B1" " R1" 739676 7] in
  __init__ 10 = Ok (fresh 10)
  /\ book ∈ Dict.values (books (run ops (fresh 10)))
  /\ Book.available_copies book
       + active_loans_of_book (Book.book_id book) (run ops (fresh 10))
     = Book.total_copies book.
Proof.
  intros book ops.
  assert (__init__ 10 = Ok (fresh 10)) as Hinit by reflexivity.
  assert (book ∈ Dict.values (books (run ops (fresh 10)))) as Hin
    by (vm_compute; apply list_elem_of_here).
  split; [exact Hinit | split; [exact Hin |]].
  exact (copies_are_conserved 10 (fresh 10) ops book Hinit Hin).
Defined.

(** ** Reader ids with surrounding whitespace *)

Lemma reachable_setUp : reachable setUp.
Proof. apply reachable_run, (reachable_init 10). reflexivity. Qed.

(** C2 (does not hold of the code): [borrow_book] keeps the reader id as
    it was passed. In the fixture, lending B1 to [" R1 "] succeeds and
    files the loan under [("B1", " R1 ")]; [return_book] with the trimmed
    id then finds no active loan, and [get_reader_active_loans] of the
    trimmed id lists none. *)
Theorem padded_reader_id_loan_is_lost :
  let s1 := snd (borrow_book "B1" " R1 " 739676 14 setUp) in
  fst (borrow_book "B1" " R1 " 739676 14 setUp) = Ok 0%nat
  /\ _active_loans s1 = [(("B1", " R1 "), 0%nat)]
  /\ return_book "B1" "R1" 739686 s1
     = (Err (Raise BusinessRuleError
               "Active loan for this book and reader was not found"), s1)
  /\ get_reader_active_loans "R1" s1 = (Ok [], s1).
Proof. vm_compute. by split_and!. Qed.

(** C3 (does not hold of the code): in the fixture, after B1 was lent to
    ["R1"] and then to [" R1"], two loans are active whose ids are the
    same after trimming. *)
Theorem padded_reader_id_second_active_loan :
  let s := run [BorrowBook "B1" "R1" 739676 14;
                BorrowBook "B1" " R1" 739676 14] setUp in
  reachable s /\ ~ one_active_loan_per_pair s.
Proof.
  intros s. split.
  - apply reachable_run, reachable_setUp.
  - intros Hone.
    assert (0%nat = 1%nat) as Heq; [|done].
    eapply Hone; vm_compute; reflexivity.
Qed.

(** C5 (does not hold of the code): in the fixture with B1 on loan to
    ["R1"], lending B1 to [" R1"] succeeds and returning it from [" R1"]
    succeeds, but the loan that was returned is the older one: the pair of
    the new loan is still in the active-loan index and the new loan has no
    [returned_date]. *)
Theorem padded_reader_id_round_trip :
  let s := exec (BorrowBook "B1" "R1" 739676 14) setUp in
  reachable s
  /\ exists loan s1 info s2,
       borrow_book "B1" " R1" 739680 14 s = (Ok loan, s1)
       /\ return_book "B1" " R1" 739690 s1 = (Ok info, s2)
       /\ Dict.mem ("B1", " R1") (_active_loans s2) = true
       /\ Loan.returned_date <$> heap s2 !! loan = Some None.
Proof.
  intros s. split.
  - apply reachable_call, reachable_setUp.
  - exists 1%nat, (snd (borrow_book "B1" " R1" 739680 14 s)),
      (mkReturnInfo 0 0),
      (snd (return_book "B1" " R1" 739690
              (snd (borrow_book "B1" " R1" 739680 14 s)))).
    split_and!; vm_compute; reflexivity.
Qed.

(** ** Borrowing and returning *)

Lemma set_set_back {K V} `{EqDecision K} (d : dict K V) k v v' :
  Dict.get k d = Some v -> Dict.set k v (Dict.set k v' d) = d.
Proof.
  induction d as [|[k0 v0] d IH]; simpl; [done|].
  destruct (decide (k = k0)) as [->|Hk]; simpl.
  - intros [= ->]. by rewrite decide_True.
  - intros Hget. rewrite decide_False by done. by rewrite IH.
Qed.

(** What a successful [borrow_book] did. *)
Lemma borrow_book_Ok b r d n s loan s1 :
  borrow_book b r d n s = (Ok loan, s1) ->
  exists book due,
    0 < n /\ Str.strip b <> "" /\ Str.strip r <> ""
    /\ Dict.get (Str.strip b) (books s) = Some book
    /\ is_Some (Dict.get (Str.strip r) (readers s))
    /\ 0 < Book.available_copies book
    /\ Dict.get (Book.book_id book, r) (_active_loans s) = None
    /\ Date.add_days d n = Some due
    /\ loan = length (heap s)
    /\ s1 = borrowed (Str.strip b) book r d due s.
Proof.
  rewrite borrow_book_eq.
  destruct (n <=? 0) eqn:Hn; [done|].
  destruct (decide _); [done|].
  destruct (Dict.get _ (books s)) as [book|] eqn:Hbook; [|done].
  destruct (decide _); [done|].
  destruct (Dict.get _ (readers s)) eqn:Hreader; [|done].
  destruct (Book.available_copies book <=? 0) eqn:Hav; [done|].
  destruct (Dict.mem _ _) eqn:Hm; [done|].
  destruct (Date.add_days _ _) as [due|] eqn:Hdue; [|done].
  intros [= <- <-]. exists book, due.
  apply mem_false in Hm. split_and!; try done; lia.
Qed.

(** What a successful [return_book] did. *)
Lemma return_book_Ok b r d s info s1 :
  return_book b r d s = (Ok info, s1) ->
  exists loan l book,
    Str.strip b <> "" /\ Str.strip r <> ""
    /\ Dict.get (Str.strip b, Str.strip r) (_active_loans s) = Some loan
    /\ heap s !! loan = Some l
    /\ Dict.get (Loan.book_id l) (books s) = Some book
    /\ info = mkReturnInfo (Z.max (d - Loan.due_date l) 0)
                (Float.round2
                   (Float.of_int (Z.max (d - Loan.due_date l) 0)
                    * fine_per_day s))
    /\ s1 = returned (Str.strip b, Str.strip r) loan l book d s.
Proof.
  rewrite return_book_eq.
  repeat (destruct (decide _); [done|]). cbv zeta.
  destruct (Dict.get _ (_active_loans s)) as [loan|] eqn:Hkey; [|done].
  destruct (heap s !! loan) as [l|] eqn:Hl; [|done].
  destruct (Dict.get _ (books s)) as [book|] eqn:Hbook; [|done].
  intros [= <- <-]. by exists loan, l, book.
Qed.

Lemma add_days_Some d n due :
  Date.add_days d n = Some due -> due = d + n /\ MINORD <= d + n <= MAXORD.
Proof.
  unfold Date.add_days.
  destruct (_ && _) eqn:Hrange; [|done]. intros [= <-].
  apply andb_true_iff in Hrange as [[_ Hlo]%andb_true_iff Hhi]. lia.
Qed.

(** The round trip, for a reader id that carries no surrounding
    whitespace: the book is as it was before the loan, the pair has left
    the active-loan index, and the history holds the loan with its
    [returned_date]. *)
Theorem borrow_return_round_trip s b r d n d2 loan s1 info s2 :
  wf s ->
  Str.strip r = r ->
  borrow_book b r d n s = (Ok loan, s1) ->
  return_book b r d2 s1 = (Ok info, s2) ->
  books s2 = books s
  /\ Dict.get (Str.strip b, r) (_active_loans s2) = None
  /\ loan ∈ _loan_history s2
  /\ heap s !! loan = None
  /\ heap s2 !! loan
     = Some (Loan.make (Str.strip b) r d (d + n) (Some d2)).
Proof.
  intros Hwf Hr Hborrow Hreturn.
  apply borrow_book_Ok in Hborrow
    as (book & due & Hn & Hb & _ & Hbook & _ & Hav & Hnew & Hdue & -> & ->).
  destruct (wf_book s Hwf _ _ Hbook) as (Hid & _ & _).
  apply add_days_Some in Hdue as [-> _].
  apply return_book_Ok in Hreturn
    as (loan & l & book' & _ & _ & Hkey & Hl & Hbook' & _ & ->).
  rewrite Hr in *. simpl in Hkey, Hl, Hbook'.
  rewrite Hid, get_set, decide_True in Hkey by done.
  injection Hkey as <-.
  rewrite list_lookup_middle in Hl by done. injection Hl as <-.
  simpl in Hbook'. rewrite Hid, get_set, decide_True in Hbook' by done.
  injection Hbook' as <-.
  split_and!; simpl.
  - rewrite Hid. rewrite set_set_back; [done|].
    rewrite Hbook. f_equal. destruct book; cbv [Book.with_available_copies
      Book.book_id Book.title Book.author Book.total_copies
      Book.available_copies]. f_equal. lia.
  - rewrite get_del by apply NoDup_keys_set, Hwf. by rewrite decide_True.
  - apply elem_of_app. right. apply list_elem_of_here.
  - by apply lookup_ge_None_2.
  - rewrite list_lookup_insert_eq by (rewrite length_app; simpl; lia).
    by rewrite Hid.
Qed.

(** What the calls leave alone. *)

Lemma add_book_frame b t a n s :
  let s1 := snd (add_book b t a n s) in
  _active_loans s1 = _active_loans s /\ heap s1 = heap s.
Proof.
  rewrite add_book_eq.
  repeat (destruct (decide _); [done|]).
  destruct (n <=? 0); [done|]. by destruct (Dict.mem _ _).
Qed.

Lemma register_reader_frame r n s :
  let s1 := snd (register_reader r n s) in
  _active_loans s1 = _active_loans s /\ heap s1 = heap s.
Proof.
  rewrite register_reader_eq.
  repeat (destruct (decide _); [done|]). by destruct (Dict.mem _ _).
Qed.

Lemma add_book_Err b t a n s e s1 :
  add_book b t a n s = (Err e, s1) -> s1 = s.
Proof.
  rewrite add_book_eq.
  repeat (destruct (decide _); [by intros [= _ <-]|]).
  destruct (n <=? 0); [by intros [= _ <-]|].
  destruct (Dict.mem _ _); [by intros [= _ <-]|done].
Qed.

Lemma register_reader_Err r n s e s1 :
  register_reader r n s = (Err e, s1) -> s1 = s.
Proof.
  rewrite register_reader_eq.
  repeat (destruct (decide _); [by intros [= _ <-]|]).
  destruct (Dict.mem _ _); [by intros [= _ <-]|done].
Qed.

Lemma borrow_book_Err b r d n s e s1 :
  borrow_book b r d n s = (Err e, s1) -> s1 = s.
Proof.
  rewrite borrow_book_eq.
  destruct (n <=? 0); [by intros [= _ <-]|].
  destruct (decide _); [by intros [= _ <-]|].
  destruct (Dict.get _ (books s)) as [book|]; [|by intros [= _ <-]].
  destruct (decide _); [by intros [= _ <-]|].
  destruct (Dict.get _ (readers s)); [|by intros [= _ <-]].
  destruct (Book.available_copies book <=? 0); [by intros [= _ <-]|].
  destruct (Dict.mem _ _); [by intros [= _ <-]|].
  destruct (Date.add_days _ _); [done|by intros [= _ <-]].
Qed.

(** [return_book] raises its [LibraryError]s before it writes. *)
Lemma return_book_Err b r d s e s1 :
  return_book b r d s = (Err e, s1) -> s1 = s \/ kind_of e = None.
Proof.
  rewrite return_book_eq. cbv zeta.
  destruct (decide _); [intros [= _ <-]; by left|].
  destruct (decide _); [intros [= _ <-]; by left|].
  destruct (Dict.get _ (_active_loans s)) as [loan|];
    [|intros [= _ <-]; by left].
  destruct (heap s !! loan) as [l|]; [|intros [= <- _]; by right].
  destruct (Dict.get _ (books s)); [done|intros [= <- _]; by right].
Qed.

(** In a state that satisfies the invariant it raises nothing else. *)
Lemma return_book_Err_wf b r d s e s1 :
  wf s -> return_book b r d s = (Err e, s1) -> s1 = s.
Proof.
  intros Hwf. rewrite return_book_eq. cbv zeta.
  destruct (decide _); [by intros [= _ <-]|].
  destruct (decide _); [by intros [= _ <-]|].
  destruct (Dict.get _ (_active_loans s)) as [loan|] eqn:Hkey;
    [|by intros [= _ <-]].
  destruct (wf_active s Hwf _ _ Hkey) as (l & -> & Hb & _ & _ & [book Hbook]).
  simpl in Hbook. rewrite Hb. simpl. by rewrite Hbook.
Qed.

(** ** After a return *)

(** A pair that is not in the active-loan index stays out of it until a
    [borrow_book] call for that pair. *)
Lemma absent_pair_exec s kb kr op :
  wf s ->
  Str.strip kr = kr ->
  Dict.get (kb, kr) (_active_loans s) = None ->
  ~ borrows_pair kb kr op ->
  Dict.get (kb, kr) (_active_loans (exec op s)) = None.
Proof.
  intros Hwf Hkr Habs Hop. destruct op; unfold exec, call; cbn [snd fst].
  - by rewrite (proj1 (add_book_frame _ _ _ _ s)).
  - by rewrite (proj1 (register_reader_frame _ _ s)).
  - by rewrite get_book_state.
  - by rewrite get_reader_state.
  - by rewrite search_books_state.
  - destruct (borrow_book book_id reader_id borrow_date loan_days s)
      as [[loan|e] s1] eqn:Hcall; cbn [snd].
    + apply borrow_book_Ok in Hcall
        as (book & due & _ & _ & _ & Hbook & _ & _ & _ & _ & _ & ->).
      destruct (wf_book s Hwf _ _ Hbook) as (Hid & _ & _).
      simpl. rewrite get_set. case_decide as Hk; [|done].
      exfalso. apply Hop. simpl. injection Hk as -> ->.
      split; [done | by rewrite Hkr].
    + by apply borrow_book_Err in Hcall as ->.
  - destruct (return_book book_id reader_id return_date s)
      as [[info|e] s1] eqn:Hcall; cbn [snd].
    + apply return_book_Ok in Hcall
        as (loan & l & book & _ & _ & _ & _ & _ & _ & ->).
      simpl. rewrite get_del by apply Hwf. by case_decide.
    + by apply return_book_Err_wf in Hcall as ->.
  - done.
  - done.
  - by rewrite get_reader_active_loans_state.
  - done.
Qed.

Lemma absent_pair_run s kb kr ops :
  wf s ->
  Str.strip kr = kr ->
  Dict.get (kb, kr) (_active_loans s) = None ->
  Forall (fun op => ~ borrows_pair kb kr op) ops ->
  Dict.get (kb, kr) (_active_loans (run ops s)) = None.
Proof.
  intros Hwf Hkr. revert s Hwf.
  induction ops as [|op ops IH]; intros s Hwf Habs Hops; simpl; [done|].
  apply Forall_cons in Hops as [Hop Hops].
  apply IH; [by apply wf_exec | by apply absent_pair_exec | done].
Qed.

(** A loan that has its [returned_date] is never written again. *)
Lemma returned_loan_exec s op loan l d :
  wf s ->
  heap s !! loan = Some l ->
  Loan.returned_date l = Some d ->
  heap (exec op s) !! loan = Some l.
Proof.
  intros Hwf Hl Hd. destruct op; unfold exec, call; cbn [snd fst].
  - by rewrite (proj2 (add_book_frame _ _ _ _ s)).
  - by rewrite (proj2 (register_reader_frame _ _ s)).
  - by rewrite get_book_state.
  - by rewrite get_reader_state.
  - by rewrite search_books_state.
  - destruct (borrow_book book_id reader_id borrow_date loan_days s)
      as [[loan'|e] s1] eqn:Hcall; cbn [snd].
    + apply borrow_book_Ok in Hcall
        as (book & due & _ & _ & _ & _ & _ & _ & _ & _ & _ & ->).
      simpl. by apply lookup_app_l_Some.
    + by apply borrow_book_Err in Hcall as ->.
  - destruct (return_book book_id reader_id return_date s)
      as [[info|e] s1] eqn:Hcall; cbn [snd].
    + apply return_book_Ok in Hcall
        as (loan' & l' & book & _ & _ & Hkey & Hl' & _ & _ & ->).
      simpl. rewrite list_lookup_insert_ne; [done|]. intros ->.
      destruct (wf_active s Hwf _ _ Hkey) as (l0 & Hl0 & _ & _ & Hact & _).
      rewrite Hl in Hl0. injection Hl0 as <-.
      rewrite Hd in Hact. discriminate.
    + by apply return_book_Err_wf in Hcall as ->.
  - done.
  - done.
  - by rewrite get_reader_active_loans_state.
  - done.
Qed.

Lemma returned_loan_run s ops loan l d :
  wf s ->
  heap s !! loan = Some l ->
  Loan.returned_date l = Some d ->
  heap (run ops s) !! loan = Some l.
Proof.
  revert s. induction ops as [|op ops IH]; intros s Hwf Hl Hd; simpl; [done|].
  eapply IH; [by apply wf_exec | by eapply returned_loan_exec | done].
Qed.

(** C6: in a state that the public methods can reach, once [return_book]
    has succeeded for a pair of ids, [return_book] for the same pair raises
    [BusinessRuleError] (no active loan found), whatever calls came in
    between as long as none of them is a [borrow_book] for that pair; and
    the loan that was returned keeps its [returned_date] through every
    sequence of calls, a new [borrow_book] for the pair among them: it
    does not become active again. *)
Theorem return_book_twice s b r d info s1 :
  reachable s ->
  return_book b r d s = (Ok info, s1) ->
  (forall ops d',
     Forall (fun op => ~ borrows_pair (Str.strip b) (Str.strip r) op) ops ->
     return_book b r d' (run ops s1)
     = (Err (Raise BusinessRuleError
               "Active loan for this book and reader was not found"),
        run ops s1))
  /\ exists loan l,
       Dict.get (Str.strip b, Str.strip r) (_active_loans s) = Some loan
       /\ heap s !! loan = Some l
       /\ Loan.is_active l = true
       /\ Loan.is_active (Loan.with_returned_date (Some d) l) = false
       /\ forall ops,
            heap (run ops s1) !! loan
            = Some (Loan.with_returned_date (Some d) l).
Proof.
  intros Hwf%wf_reachable Hreturn.
  pose proof Hreturn as Hs1.
  apply return_book_Ok in Hs1
    as (loan & l & book & Hb & Hr & Hkey & Hl & Hbook & _ & Hs1).
  assert (wf s1) as Hwf1 by (subst s1; by apply wf_returned).
  split.
  - intros ops d' Hops. rewrite return_book_eq.
    rewrite !decide_False by done. cbv zeta.
    rewrite absent_pair_run; try done.
    + apply strip_idemp.
    + subst s1. simpl. rewrite get_del by apply Hwf. by rewrite decide_True.
  - exists loan, l.
    destruct (wf_active s Hwf _ _ Hkey) as (l0 & Hl0 & _ & _ & Hact & _).
    assert (l0 = l) as -> by congruence.
    split_and!; try done.
    + unfold Loan.is_active. by rewrite Hact.
    + intros ops. eapply returned_loan_run; [done | | done].
      subst s1. simpl. apply list_lookup_insert_eq.
      by eapply lookup_lt_Some.
Qed.

Lemma return_book_twice_witness :
  let s := exec (BorrowBook "B2" "R2" 739676 7) setUp in
  let s1 := snd (return_book "B2" "R2" 739685 s) in
  let ops := [GetBook "B2"; BorrowBook "B1" "R2" 739686 7] in
  let again := [BorrowBook "B2" "R2" 739686 7] in
  let l := Loan.make "B2" "R2" 739676 739683 None in
  reachable s
  /\ return_book "B2" "R2" 739685 s = (Ok (mkReturnInfo 2 20), s1)
  /\ Forall (fun op => ~ borrows_pair (Str.strip "B2") (Str.strip "R2") op)
       ops
  /\ return_book "B2" "R2" 739690 (run ops s1)
     = (Err (Raise BusinessRuleError
               "Active loan for this book and reader was not found"),
        run ops s1)
  /\ heap s !! 0%nat = Some l
  /\ heap (run again s1) !! 0%nat
     = Some (Loan.with_returned_date (Some 739685) l).
Proof.
  intros s s1 ops again l.
  assert (reachable s) as Hs by apply reachable_call, reachable_setUp.
  assert (return_book "B2" "R2" 739685 s = (Ok (mkReturnInfo 2 20), s1))
    as Hret by (vm_compute; reflexivity).
  assert (Forall
            (fun op => ~ borrows_pair (Str.strip "B2") (Str.strip "R2") op)
            ops) as Hops.
  { repeat constructor.
    - intros [].
    - intros [Hb _]. vm_compute in Hb. discriminate. }
  assert (heap s !! 0%nat = Some l) as Hl by reflexivity.
  split_and!; [exact Hs | exact Hret | exact Hops | | exact Hl |].
  - exact (proj1 (return_book_twice s "B2" "R2" 739685 _ s1 Hs Hret)
             ops 739690 Hops).
  - destruct (proj2 (return_book_twice s "B2" "R2" 739685 _ s1 Hs Hret))
      as (loan & l' & Hkey & Hl' & _ & _ & Hkeeps).
    assert (loan = 0%nat) as -> by (vm_compute in Hkey; congruence).
    assert (l' = l) as -> by congruence.
    exact (Hkeeps again).
Defined.

(** ** Exceptions *)

(** A [LibraryError] is raised before anything is written, in every
    state. *)
Lemma library_error_keeps_state op s e s' k :
  call op s = (Some e, s') -> kind_of e = Some k -> s' = s.
Proof.
  intros Hcall Hk.
  destruct op; unfold call in Hcall; cbn [fst snd] in Hcall.
  - destruct (add_book _ _ _ _ s) as [[v|e0] s1] eqn:Hm; [done|].
    injection Hcall as _ <-. by eapply add_book_Err.
  - destruct (register_reader _ _ s) as [[v|e0] s1] eqn:Hm; [done|].
    injection Hcall as _ <-. by eapply register_reader_Err.
  - rewrite get_book_state in Hcall. by injection Hcall.
  - rewrite get_reader_state in Hcall. by injection Hcall.
  - rewrite search_books_state in Hcall. by injection Hcall.
  - destruct (borrow_book _ _ _ _ s) as [[v|e0] s1] eqn:Hm; [done|].
    injection Hcall as _ <-. by eapply borrow_book_Err.
  - destruct (return_book _ _ _ s) as [[v|e0] s1] eqn:Hm; [done|].
    injection Hcall as -> <-.
    apply return_book_Err in Hm as [->|Hnone]; [done|].
    rewrite Hk in Hnone. discriminate.
  - by injection Hcall.
  - by injection Hcall.
  - rewrite get_reader_active_loans_state in Hcall. by injection Hcall.
  - by injection Hcall.
Qed.

(** In a state that satisfies the invariant no other exception changes
    the state either. *)
Lemma exceptions_leave_state_unchanged op s e s' :
  wf s -> call op s = (Some e, s') -> s' = s.
Proof.
  intros Hwf Hcall.
  destruct op; unfold call in Hcall; cbn [fst snd] in Hcall.
  - destruct (add_book _ _ _ _ s) as [[v|e0] s1] eqn:Hm; [done|].
    injection Hcall as _ <-. by eapply add_book_Err.
  - destruct (register_reader _ _ s) as [[v|e0] s1] eqn:Hm; [done|].
    injection Hcall as _ <-. by eapply register_reader_Err.
  - rewrite get_book_state in Hcall. by injection Hcall.
  - rewrite get_reader_state in Hcall. by injection Hcall.
  - rewrite search_books_state in Hcall. by injection Hcall.
  - destruct (borrow_book _ _ _ _ s) as [[v|e0] s1] eqn:Hm; [done|].
    injection Hcall as _ <-. by eapply borrow_book_Err.
  - destruct (return_book _ _ _ s) as [[v|e0] s1] eqn:Hm; [done|].
    injection Hcall as _ <-. by eapply return_book_Err_wf.
  - by injection Hcall.
  - by injection Hcall.
  - rewrite get_reader_active_loans_state in Hcall. by injection Hcall.
  - by injection Hcall.
Qed.

(** What a call can raise in a state that satisfies the invariant: a
    [LibraryError], or the [OverflowError] of the due date of
    [borrow_book]. *)
Lemma exception_is_library_error_or_overflow op s e :
  wf s ->
  fst (call op s) = Some e ->
  (exists k msg, e = Raise k msg)
  \/ (e = OverflowError
      /\ exists b r d n, op = BorrowBook b r d n /\ Date.add_days d n = None).
Proof.
  intros Hwf.
  assert (forall k msg, Some (Raise k msg) = Some e ->
            (exists k msg, e = Raise k msg)
            \/ (e = OverflowError
                /\ exists b r d n,
                     op = BorrowBook b r d n /\ Date.add_days d n = None))
    as Hlib by (intros k msg [= <-]; left; by eexists _, _).
  destruct op; unfold call; cbn [fst snd].
  - rewrite add_book_eq.
    destruct (decide (Str.strip book_id = "")); [apply Hlib|].
    destruct (decide (Str.strip title = "")); [apply Hlib|].
    destruct (decide (Str.strip author = "")); [apply Hlib|].
    destruct (total_copies <=? 0); [apply Hlib|].
    destruct (Dict.mem _ _); [apply Hlib | done].
  - rewrite register_reader_eq.
    destruct (decide (Str.strip reader_id = "")); [apply Hlib|].
    destruct (decide (Str.strip full_name = "")); [apply Hlib|].
    destruct (Dict.mem _ _); [apply Hlib | done].
  - rewrite get_book_eq.
    destruct (decide (Str.strip book_id = "")); [apply Hlib|].
    destruct (Dict.get _ _); [done | apply Hlib].
  - rewrite get_reader_eq.
    destruct (decide (Str.strip reader_id = "")); [apply Hlib|].
    destruct (Dict.get _ _); [done | apply Hlib].
  - unfold search_books, bind at 1. rewrite require_non_empty_eq.
    destruct (decide (Str.strip query = "")); [apply Hlib | done].
  - rewrite borrow_book_eq.
    destruct (loan_days <=? 0); [apply Hlib|].
    destruct (decide (Str.strip book_id = "")); [apply Hlib|].
    destruct (Dict.get _ (books s)) as [book|]; [|apply Hlib].
    destruct (decide (Str.strip reader_id = "")); [apply Hlib|].
    destruct (Dict.get _ (readers s)); [|apply Hlib].
    destruct (Book.available_copies book <=? 0); [apply Hlib|].
    destruct (Dict.mem _ _); [apply Hlib|].
    destruct (Date.add_days borrow_date loan_days) eqn:Hdue; [done|].
    intros [= <-]. right. split; [done|]. by eexists _, _, _, _.
  - rewrite return_book_eq. cbv zeta.
    destruct (decide (Str.strip book_id = "")); [apply Hlib|].
    destruct (decide (Str.strip reader_id = "")); [apply Hlib|].
    destruct (Dict.get _ (_active_loans s)) as [loan|] eqn:Hkey;
      [|apply Hlib].
    destruct (wf_active s Hwf _ _ Hkey)
      as (l & -> & Hb & _ & _ & [book Hbook]).
    simpl in Hbook. rewrite Hb. simpl. by rewrite Hbook.
  - done.
  - done.
  - unfold get_reader_active_loans, bind at 1. rewrite require_non_empty_eq.
    destruct (decide (Str.strip reader_id = "")); [apply Hlib|].
    unfold bind at 1. rewrite get_reader_eq.
    destruct (decide _); [apply Hlib|].
    destruct (Dict.get _ _); [done | apply Hlib].
  - done.
Qed.

(** C9 (as stated, fails): in the fixture, [borrow_book] for 9999-12-31
    and one day fails, and what it raises is [OverflowError], none of the
    four kinds of [LibraryError]. *)
Lemma one_error_kind_counterexample :
  reachable setUp
  /\ Date.ymd 9999 12 31 = Some MAXORD
  /\ call (BorrowBook "B1" "R1" MAXORD 1) setUp = (Some OverflowError, setUp)
  /\ kind_of OverflowError = None.
Proof.
  split; [apply reachable_setUp|]. split_and!; vm_compute; reflexivity.
Qed.

(** C9 (amended): when a call of a public method raises a [LibraryError]
    of any of the four kinds, the manager (books, readers, active-loan
    index, loan history, loan objects) is as it was before the call; and
    in every state that the public methods can reach, a call that fails
    leaves the manager as it was and raises either a [LibraryError], which
    has exactly one of the four kinds, or, in [borrow_book] only, the
    [OverflowError] of a due date after 9999-12-31. *)
Theorem library_errors_leave_state_unchanged :
  (forall op s e s' k,
     call op s = (Some e, s') -> kind_of e = Some k -> s' = s)
  /\ (forall op s e s',
        reachable s ->
        call op s = (Some e, s') ->
        s' = s
        /\ ((exists k msg,
               e = Raise k msg
               /\ forall k', kind_of e = Some k' <-> k' = k)
            \/ (e = OverflowError
                /\ exists b r d n,
                     op = BorrowBook b r d n
                     /\ Date.add_days d n = None))).
Proof.
  split.
  - intros op s e s' k. apply library_error_keeps_state.
  - intros op s e s' Hwf%wf_reachable Hcall. split.
    + by eapply exceptions_leave_state_unchanged.
    + destruct (exception_is_library_error_or_overflow op s e Hwf)
        as [(k & msg & ->)|Hover].
      * by rewrite Hcall.
      * left. exists k, msg. split; [done|]. intros k'. simpl.
        split; [by intros [= <-] | by intros ->].
      * by right.
Qed.

Lemma library_errors_leave_state_unchanged_witness :
  let e := Raise AlreadyExistsError "Book with id 'B1' already exists" in
  call (AddBook " B1" "Clean Code" "Robert Martin" 3) setUp = (Some e, setUp)
  /\ kind_of e = Some AlreadyExistsError
  /\ reachable setUp
  /\ call (BorrowBook "B1" "R1" MAXORD 1) setUp = (Some OverflowError, setUp)
  /\ setUp = setUp
  /\ ((exists k msg,
         OverflowError = Raise k msg
         /\ forall k', kind_of OverflowError = Some k' <-> k' = k)
      \/ (OverflowError = OverflowError
          /\ exists b r d n,
               BorrowBook "B1" "R1" MAXORD 1 = BorrowBook b r d n
               /\ Date.add_days d n = None)).
Proof.
  intros e.
  assert (call (AddBook " B1" "Clean Code" "Robert Martin" 3) setUp
          = (Some e, setUp)) as Hcall by (vm_compute; reflexivity).
  assert (kind_of e = Some AlreadyExistsError) as Hk by reflexivity.
  assert (reachable setUp) as Hs by apply reachable_setUp.
  assert (call (BorrowBook "B1" "R1" MAXORD 1) setUp
          = (Some OverflowError, setUp)) as Hover by (vm_compute; reflexivity).
  split_and!; [exact Hcall | exact Hk | exact Hs | exact Hover | |].
  - exact (proj1 library_errors_leave_state_unchanged _ _ _ _ _ Hcall Hk).
  - exact (proj2 (proj2 library_errors_leave_state_unchanged _ _ _ _
                    Hs Hover)).
Defined.

(** ** The checks of [borrow_book] *)

Lemma add_days_in_range d n :
  valid_date d -> 0 < n -> d + n <= MAXORD ->
  Date.add_days d n = Some (d + n).
Proof.
  unfold valid_date, Date.add_days, MINORD, MAXORD. intros Hd Hn Hmax.
  rewrite !andb_true_intro; [done|]. split; [|lia].
  apply andb_true_intro. split; lia.
Qed.

Lemma add_days_overflow d n :
  valid_date d -> 0 < n -> MAXORD < d + n -> Date.add_days d n = None.
Proof.
  unfold valid_date, Date.add_days, MINORD, MAXORD. intros Hd Hn Hmax.
  replace (d + n <=? 3652059) with false by lia.
  by rewrite andb_false_r.
Qed.

(** C1 (as stated, fails): with [loan_days > 0] and a book id that is not
    in the manager because it is blank, [borrow_book] raises
    [ValidationError], not [NotFoundError]; and with the loan days, the
    book, the reader, the copies and the active-loan index all in order,
    [borrow_book] for 9999-12-31 and one day raises [OverflowError]
    instead of returning a loan. *)
Lemma borrow_book_order_counterexample :
  (0 < 14
   /\ Dict.get (Str.strip "   ") (books setUp) = None
   /\ borrow_book "   " "R1" 739676 14 setUp
      = (Err (Raise ValidationError "book_id must be non-empty"), setUp)
   /\ ~ exists msg,
        fst (borrow_book "   " "R1" 739676 14 setUp)
        = Err (Raise NotFoundError msg))
  /\ (Date.ymd 9999 12 31 = Some MAXORD
      /\ 0 < Book.available_copies
               (Book.make "B1" "Clean Code" "Robert Martin" 2 2)
      /\ Dict.get "B1" (books setUp)
         = Some (Book.make "B1" "Clean Code" "Robert Martin" 2 2)
      /\ is_Some (Dict.get "R1" (readers setUp))
      /\ Dict.get ("B1", "R1") (_active_loans setUp) = None
      /\ borrow_book "B1" "R1" MAXORD 1 setUp = (Err OverflowError, setUp)).
Proof.
  split; split_and!; try (vm_compute; reflexivity).
  - intros [msg Hmsg]. vm_compute in Hmsg. discriminate.
  - by eexists.
Qed.

(** C1 (amended): [borrow_book] makes its checks in this order and raises
    at the first that fails, leaving the state as it was:
    [loan_days <= 0], [ValidationError]; a [book_id] that is empty once
    trimmed, [ValidationError]; no book under the trimmed [book_id],
    [NotFoundError]; a [reader_id] that is empty once trimmed,
    [ValidationError]; no reader under the trimmed [reader_id],
    [NotFoundError]; [book.available_copies <= 0], [BusinessRuleError];
    and then, for a [reader_id] that carries no surrounding whitespace:
    an active loan under the pair of the book's id and [reader_id],
    [BusinessRuleError]; a due date after 9999-12-31, [OverflowError];
    otherwise the call succeeds and returns a new [Loan] of that book to
    that reader with [due_date = borrow_date + loan_days]. *)
Theorem borrow_book_checks_in_order s b r d n :
  (n <= 0 ->
   borrow_book b r d n s
   = (Err (Raise ValidationError "loan_days must be greater than 0"), s))
  /\ (0 < n -> Str.strip b = "" ->
      borrow_book b r d n s
      = (Err (Raise ValidationError "book_id must be non-empty"), s))
  /\ (0 < n -> Str.strip b <> "" ->
      Dict.get (Str.strip b) (books s) = None ->
      exists msg,
        borrow_book b r d n s = (Err (Raise NotFoundError msg), s))
  /\ (forall book,
      0 < n -> Str.strip b <> "" ->
      Dict.get (Str.strip b) (books s) = Some book ->
      (Str.strip r = "" ->
       borrow_book b r d n s
       = (Err (Raise ValidationError "reader_id must be non-empty"), s))
      /\ (Str.strip r <> "" ->
          Dict.get (Str.strip r) (readers s) = None ->
          exists msg,
            borrow_book b r d n s = (Err (Raise NotFoundError msg), s))
      /\ (Str.strip r <> "" ->
          is_Some (Dict.get (Str.strip r) (readers s)) ->
          (Book.available_copies book <= 0 ->
           borrow_book b r d n s
           = (Err (Raise BusinessRuleError
                     "No available copies for this book"), s))
          /\ (0 < Book.available_copies book ->
              Str.strip r = r ->
              (is_Some (Dict.get (Book.book_id book, r) (_active_loans s)) ->
               borrow_book b r d n s
               = (Err (Raise BusinessRuleError
                         "Reader already has this book on loan"), s))
              /\ (Dict.get (Book.book_id book, r) (_active_loans s) = None ->
                  valid_date d ->
                  (MAXORD < d + n ->
                   borrow_book b r d n s = (Err OverflowError, s))
                  /\ (d + n <= MAXORD ->
                      exists loan s',
                        borrow_book b r d n s = (Ok loan, s')
                        /\ heap s !! loan = None
                        /\ heap s' !! loan
                           = Some (Loan.make (Book.book_id book) r d
                                     (d + n) None)))))).
Proof.
  rewrite borrow_book_eq. split_and!.
  - intros Hn. by replace (n <=? 0) with true by lia.
  - intros Hn Hb. replace (n <=? 0) with false by lia.
    by rewrite decide_True.
  - intros Hn Hb Hbook. replace (n <=? 0) with false by lia.
    rewrite decide_False, Hbook by done. by eexists.
  - intros book Hn Hb Hbook. replace (n <=? 0) with false by lia.
    rewrite decide_False, Hbook by done. split_and!.
    + intros Hr. by rewrite decide_True.
    + intros Hr Hreader. rewrite decide_False, Hreader by done. by eexists.
    + intros Hr [reader Hreader]. rewrite decide_False, Hreader by done.
      split.
      * intros Hav.
        by replace (Book.available_copies book <=? 0) with true by lia.
      * intros Hav _.
        replace (Book.available_copies book <=? 0) with false by lia.
        split.
        -- intros Hact%mem_get. by rewrite Hact.
        -- intros Hact%mem_false Hd. rewrite Hact. split.
           ++ intros Hmax. by rewrite add_days_overflow.
           ++ intros Hmax. rewrite add_days_in_range by done.
              eexists _, _. split_and!; [done | |].
              ** by apply lookup_ge_None_2.
              ** simpl. by apply list_lookup_middle.
Qed.

Lemma borrow_book_checks_in_order_witness :
  let book := Book.make "B1" "Clean Code" "Robert Martin" 2 2 in
  0 < 7
  /\ Str.strip "B1" <> ""
  /\ Dict.get (Str.strip "B1") (books setUp) = Some book
  /\ Str.strip "R1" <> ""
  /\ is_Some (Dict.get (Str.strip "R1") (readers setUp))
  /\ 0 < Book.available_copies book
  /\ Str.strip "R1" = "R1"
  /\ Dict.get (Book.book_id book, "R1") (_active_loans setUp) = None
  /\ valid_date 739676
  /\ 739676 + 7 <= MAXORD
  /\ exists loan s',
       borrow_book "B1" "R1" 739676 7 setUp = (Ok loan, s')
       /\ heap setUp !! loan = None
       /\ heap s' !! loan = Some (Loan.make "B1" "R1" 739676 739683 None).
Proof.
  intros book.
  assert (0 < 7) as Hn by lia.
  assert (Str.strip "B1" <> "") as Hb by (vm_compute; discriminate).
  assert (Dict.get (Str.strip "B1") (books setUp) = Some book) as Hbook
    by (vm_compute; reflexivity).
  assert (Str.strip "R1" <> "") as Hr by (vm_compute; discriminate).
  assert (is_Some (Dict.get (Str.strip "R1") (readers setUp))) as Hreader
    by (vm_compute; eexists; reflexivity).
  assert (0 < Book.available_copies book) as Hav by (simpl; lia).
  assert (Str.strip "R1" = "R1") as Htrim by (vm_compute; reflexivity).
  assert (Dict.get (Book.book_id book, "R1") (_active_loans setUp) = None)
    as Hact by (vm_compute; reflexivity).
  assert (valid_date 739676) as Hd by (unfold valid_date, MINORD, MAXORD; lia).
  assert (739676 + 7 <= MAXORD) as Hmax by (unfold MAXORD; lia).
  split_and!; try assumption.
  pose proof (borrow_book_checks_in_order setUp "B1" "R1" 739676 7)
    as (_ & _ & _ & Hchecks).
  destruct (Hchecks book Hn Hb Hbook) as (_ & _ & Hchecks1).
  destruct (Hchecks1 Hr Hreader) as (_ & Hchecks2).
  destruct (Hchecks2 Hav Htrim) as (_ & Hchecks3).
  destruct (Hchecks3 Hact Hd) as (_ & Hchecks4).
  exact (Hchecks4 Hmax).
Defined.

(** ** Fines *)

Lemma of_int_0 : Float.of_int 0 = 0%float.
Proof. vm_compute. reflexivity. Qed.

(** Nothing times a finite rate is a zero. *)
Lemma zero_times_finite rate :
  is_finite rate = true ->
  exists sign, Prim2SF (Float.of_int 0 * rate) = S754_zero sign.
Proof.
  intros Hfin. rewrite of_int_0, mul_spec.
  unfold is_finite, is_nan, is_infinity in Hfin.
  rewrite !FloatAxioms.eqb_spec, abs_spec in Hfin.
  change (Prim2SF 0) with (S754_zero false).
  change (Prim2SF infinity) with (S754_infinity false) in Hfin.
  destruct (Prim2SF rate) as [sign|[|]| |sign m e]; simpl in *;
    try discriminate; by eexists.
Qed.

Lemma round2_zero x sign :
  Prim2SF x = S754_zero sign ->
  Float.round2 x = x /\ (x =? 0)%float = true.
Proof.
  intros Hx. unfold Float.round2. rewrite Hx. split; [done|].
  rewrite FloatAxioms.eqb_spec, Hx. by destruct sign.
Qed.

Lemma fine_spec_eq rate due_date return_date :
  fine_spec rate due_date return_date
  = Float.round2 (Float.of_int (Z.max (return_date - due_date) 0) * rate).
Proof. unfold fine_spec, overdue_days_spec. by rewrite Z.max_comm. Qed.

(** C7 (as stated, fails): a manager can be built with the rate
    [float('inf')], and then [calculate_fine(2026-04-10, 2026-04-10)] is
    [0 * inf], which is nan and not [0.0]. *)
Lemma calculate_fine_counterexample :
  __init__ infinity = Ok (fresh infinity)
  /\ Date.ymd 2026 4 10 = Some 739716
  /\ calculate_fine 739716 739716 (fresh infinity)
     = (Ok nan, fresh infinity)
  /\ (nan =? 0)%float = false.
Proof. split_and!; vm_compute; reflexivity. Qed.

(** C7 (amended): [calculate_fine(due_date, return_date)] leaves the state
    as it is and returns
    [round(max(0, days from due_date to return_date) * fine_per_day, 2)];
    [calculate_fine(2026-04-10, 2026-04-10)] equals [0.0] at any finite
    rate, and [calculate_fine(2026-04-10, 2026-04-13)] is [30.0] when
    [fine_per_day = 10.0]; a successful [return_book] returns
    [overdue_days] and [fine_amount] by the same formula from the
    [due_date] of the loan it returns, that is, what [calculate_fine]
    gives for that [due_date]. *)
Theorem calculate_fine_formula :
  (forall s due_date return_date,
     calculate_fine due_date return_date s
     = (Ok (fine_spec (fine_per_day s) due_date return_date), s))
  /\ (forall s d,
        Date.ymd 2026 4 10 = Some d ->
        is_finite (fine_per_day s) = true ->
        exists fine,
          calculate_fine d d s = (Ok fine, s) /\ (fine =? 0)%float = true)
  /\ (forall s d d',
        Date.ymd 2026 4 10 = Some d ->
        Date.ymd 2026 4 13 = Some d' ->
        fine_per_day s = 10%float ->
        calculate_fine d d' s = (Ok 30%float, s))
  /\ (forall s b r return_date info s',
        return_book b r return_date s = (Ok info, s') ->
        exists loan l,
          Dict.get (Str.strip b, Str.strip r) (_active_loans s) = Some loan
          /\ heap s !! loan = Some l
          /\ overdue_days info
             = overdue_days_spec (Loan.due_date l) return_date
          /\ fine_amount info
             = fine_spec (fine_per_day s) (Loan.due_date l) return_date
          /\ fst (calculate_fine (Loan.due_date l) return_date s)
             = Ok (fine_amount info)).
Proof.
  split_and!.
  - intros s due_date return_date. rewrite fine_spec_eq. reflexivity.
  - intros s d _ Hfin.
    destruct (zero_times_finite _ Hfin) as [sign Hzero].
    destruct (round2_zero _ _ Hzero) as [Hround Heq].
    eexists. split; [reflexivity|].
    unfold Date.days_between. rewrite Z.sub_diag, Z.max_id.
    by rewrite Hround.
  - intros s d d' [= <-] [= <-] Hrate.
    unfold calculate_fine, bind, gets, ret. rewrite Hrate.
    vm_compute. reflexivity.
  - intros s b r return_date info s' Hreturn.
    apply return_book_Ok in Hreturn
      as (loan & l & book & _ & _ & Hkey & Hl & _ & -> & _).
    exists loan, l. rewrite fine_spec_eq. unfold overdue_days_spec.
    split_and!; try done. simpl. apply Z.max_comm.
Qed.

Lemma calculate_fine_formula_witness :
  Date.ymd 2026 4 10 = Some 739716
  /\ Date.ymd 2026 4 13 = Some 739719
  /\ is_finite (fine_per_day setUp) = true
  /\ fine_per_day setUp = 10%float
  /\ calculate_fine 739716 739719 setUp = (Ok 30%float, setUp)
  /\ exists fine,
       calculate_fine 739716 739716 setUp = (Ok fine, setUp)
       /\ (fine =? 0)%float = true.
Proof.
  assert (Date.ymd 2026 4 10 = Some 739716) as Hd by reflexivity.
  assert (Date.ymd 2026 4 13 = Some 739719) as Hd' by reflexivity.
  assert (is_finite (fine_per_day setUp) = true) as Hfin by reflexivity.
  assert (fine_per_day setUp = 10%float) as Hrate by reflexivity.
  split_and!; try assumption.
  - exact (proj1 (proj2 (proj2 calculate_fine_formula))
             setUp 739716 739719 Hd Hd' Hrate).
  - exact (proj1 (proj2 calculate_fine_formula) setUp 739716 Hd Hfin).
Defined.

(** ** Searching *)




(** Over the wider alphabet: the strings of code points below 256 are
    treated there as they are in the manager. *)


Lemma unicode_of_string_inj s t :
  Unicode.of_string s = Unicode.of_string t -> s = t.
Proof.
  revert t. induction s as [|c s IH]; intros [|c' t]; simpl; try done.
  intros [= -> Heq]. f_equal. by apply IH.
Qed.











(** The Greek samples, as CPython lowers them. *)
Example unicode_lower_samples :
  let O := Unicode.CapitalOmicron in
  let S := Unicode.CapitalSigma in
  let L := fun s => Unicode.of_string s in
  map Unicode.lower
    [[O; S]; [O; S; O]; [S]; L " " ++ [S]; L "a." ++ [S] ++ L ".b";
     L "a." ++ [S] ++ L ". "]
  = [[Unicode.SmallOmicron; Unicode.SmallFinalSigma];
     [Unicode.SmallOmicron; Unicode.SmallSigma; Unicode.SmallOmicron];
     [Unicode.SmallSigma]; L " " ++ [Unicode.SmallSigma];
     L "a." ++ [Unicode.SmallSigma] ++ L ".b";
     L "a." ++ [Unicode.SmallFinalSigma] ++ L ". "].
Proof. vm_compute. reflexivity. Qed.




(** ** The active-loan index, pair by pair *)

(** The active loans, read as pairs of ids, are the keys of the index. *)
Lemma active_loans_pairs s :
  wf s ->
  (fun l => (Loan.book_id l, Loan.reader_id l)) <$> active_loans s
  = Dict.keys (_active_loans s).
Proof.
  intros Hwf. unfold active_loans, Dict.values, Dict.keys.
  pose proof (fun key loan => active_entry s key loan Hwf) as Hent.
  induction (_active_loans s) as [|[key loan] d IH]; [done|].
  destruct (Hent key loan) as (l & Hl & Hb & Hr & _);
    [apply list_elem_of_here|].
  cbn [fmap list_fmap omap list_omap fst snd]. rewrite Hl.
  cbn [fmap list_fmap]. rewrite Hb, Hr. f_equal; [by destruct key|].
  apply IH. intros key' loan' Hin. by apply Hent, list_elem_of_further.
Qed.

(** What the code does keep: no two active loans have the same ids as
    they were stored. *)
Lemma one_active_loan_per_stored_pair s i j li lj :
  reachable s ->
  active_loans s !! i = Some li ->
  active_loans s !! j = Some lj ->
  (Loan.book_id li, Loan.reader_id li) = (Loan.book_id lj, Loan.reader_id lj) ->
  i = j.
Proof.
  intros Hwf%wf_reachable Hi Hj Heq.
  apply (NoDup_lookup (Dict.keys (_active_loans s)) i j
           (Loan.book_id li, Loan.reader_id li)); [apply Hwf | |].
  - by rewrite <- active_loans_pairs, list_lookup_fmap, Hi.
  - by rewrite <- active_loans_pairs, list_lookup_fmap, Hj, Heq.
Qed.

(** ** The scenarios of the test suite *)

Example test_return_book_success_updates_state_and_returns_fine :
  let s1 := exec (BorrowBook "B2" "R2" 739676 7) setUp in
  let s2 := snd (return_book "B2" "R2" 739685 s1) in
  Date.ymd 2026 3 1 = Some 739676
  /\ Date.ymd 2026 3 10 = Some 739685
  /\ fst (return_book "B2" "R2" 739685 s1) = Ok (mkReturnInfo 2 20)
  /\ fst (get_active_loans s2) = Ok []
  /\ (Book.available_copies ∘ snd <$> value_of (fst (get_book "B2" s2)))
     = Some 1.
Proof. vm_compute. by split_and!. Qed.

Example test_get_book_errors :
  fst (get_book "   " setUp)
  = Err (Raise ValidationError "book_id must be non-empty")
  /\ fst (get_book "UNKNOWN" setUp)
     = Err (Raise NotFoundError "Book with id 'UNKNOWN' not found")
  /\ fst (return_book "B1" "R1" 739680 setUp)
     = Err (Raise BusinessRuleError
              "Active loan for this book and reader was not found").
Proof. vm_compute. by split_and!. Qed.

Example test_search_books_by_author :
  fst (search_books "martin" setUp)
  = Ok [Book.make "B1" "Clean Code" "Robert Martin" 2 2].
Proof. vm_compute. reflexivity. Qed.

Example ymd_samples :
  map (fun '(y, m, d) => Date.ymd y m d)
    [(2026, 4, 10); (2026, 4, 13); (2026, 3, 1); (9999, 12, 31); (1, 1, 1);
     (2026, 2, 29)]
  = [Some 739716; Some 739719; Some 739676; Some MAXORD; Some MINORD; None].
Proof. vm_compute. reflexivity. Qed.

Example strip_samples :
  map Str.strip ["  R1 "; "   "; ""; "a b"; " a  b  "]
  = ["R1"; ""; ""; "a b"; "a  b"].
Proof. vm_compute. reflexivity. Qed.

(** [round(x, 2)] on values that are ties in binary (0.125, 0.375), on
    values whose decimal spelling is a tie but whose binary value is not
    (2.675, 1.005, 0.005, 0.015), and on large ones, as CPython gives
    them. *)
#[local] Set Warnings "-inexact-float".
Example round2_samples :
  map Float.round2
    [2.675; 0.125; 0.375; 1.005; 0.005; 0.015; 0.0025; 30; 20.004999;
     123456789012345.678; 1.1e300; infinity; neg_infinity;
     -30; -2.675; -0.125; -0.375; -1.1e300]%float
  = [2.67; 0.12; 0.38; 1; 0.01; 0.01; 0; 30; 20;
     123456789012345.67; 1.1e300; infinity; neg_infinity;
     -30; -2.67; -0.12; -0.38; -1.1e300]%float.
Proof. vm_compute. reflexivity. Qed.

(** * Further properties *)

(** ** What [_require_non_empty] returns *)

Lemma append_cons c a b : String c a +:+ b = String c (a +:+ b).
Proof. reflexivity. Qed.

Lemma all_space_app a b : all_space (a +:+ b) = all_space a && all_space b.
Proof.
  induction a as [|c a IH]; simpl; [done|]. by rewrite IH, andb_assoc.
Qed.

Lemma lstrip_split s :
  exists pre, s = pre +:+ Str.lstrip s /\ all_space pre = true.
Proof.
  induction s as [|c s (pre & Hs & Hpre)]; simpl.
  - by exists EmptyString.
  - destruct (Str.isspace c) eqn:Hc.
    + exists (String c pre). split.
      * rewrite append_cons. f_equal. exact Hs.
      * simpl. by rewrite Hc.
    + by exists EmptyString.
Qed.

Lemma rstrip_split s :
  exists suf, s = Str.rstrip s +:+ suf /\ all_space suf = true.
Proof.
  induction s as [|c s (suf & Hs & Hsuf)]; simpl.
  - by exists EmptyString.
  - destruct (Str.rstrip s) as [|c' r] eqn:Hr.
    + destruct (Str.isspace c) eqn:Hc.
      * exists (String c suf). change (s = suf) in Hs. split.
        -- by subst s.
        -- simpl. by rewrite Hc.
      * exists suf. change (s = suf) in Hs. split; [by subst s | done].
    + exists suf. split; [|done]. rewrite append_cons. f_equal. exact Hs.
Qed.

Lemma lstrip_all_space s : all_space s = true -> Str.lstrip s = "".
Proof.
  induction s as [|c s IH]; simpl; [done|].
  intros [Hc Hs]%andb_true_iff. rewrite Hc. auto.
Qed.

Lemma rstrip_last s c :
  last_char (Str.rstrip s) = Some c -> Str.isspace c = false.
Proof.
  induction s as [|c0 s IH]; simpl; [done|].
  destruct (Str.rstrip s) as [|c' r] eqn:Hr.
  - destruct (Str.isspace c0) eqn:Hc0; simpl; [done|]. by intros [= <-].
  - intros Hlast. apply IH. exact Hlast.
Qed.

Lemma no_lead_first s c :
  Str.no_lead s -> first_char s = Some c -> Str.isspace c = false.
Proof. destruct s; simpl; [done|]. by intros ? [= <-]. Qed.

Lemma strip_split s :
  exists pre suf,
    s = pre +:+ Str.strip s +:+ suf
    /\ all_space pre = true /\ all_space suf = true.
Proof.
  destruct (lstrip_split s) as (pre & Hs & Hpre).
  destruct (rstrip_split (Str.lstrip s)) as (suf & Ht & Hsuf).
  exists pre, suf. unfold Str.strip. by rewrite <- Ht.
Qed.

Lemma strip_empty s : Str.strip s = "" <-> all_space s = true.
Proof.
  split.
  - intros Hempty. destruct (strip_split s) as (pre & suf & Hs & Hpre & Hsuf).
    rewrite Hs, Hempty, !all_space_app, Hpre, Hsuf. reflexivity.
  - intros Hs. unfold Str.strip. by rewrite lstrip_all_space.
Qed.

Lemma strip_normalized s : Str.strip s <> "" -> normalized (Str.strip s).
Proof.
  intros Hne. split_and!; [done | |].
  - intros c. apply no_lead_first, rstrip_no_lead, lstrip_no_lead.
  - intros c. apply rstrip_last.
Qed.

(** X1: [_require_non_empty] raises [ValidationError], naming the field,
    exactly for a value of whitespace only (the empty string among them);
    any other value is returned without the whitespace in front of and
    behind it: what is returned is not empty and neither begins nor ends
    with whitespace, and the value is it with whitespace around. *)
Theorem require_non_empty_spec value field_name s :
  (all_space value = true ->
   _require_non_empty value field_name s
   = (Err (Raise ValidationError (field_name +:+ " must be non-empty")), s))
  /\ (all_space value = false ->
      exists pre result suf,
        _require_non_empty value field_name s = (Ok result, s)
        /\ value = pre +:+ result +:+ suf
        /\ all_space pre = true /\ all_space suf = true
        /\ normalized result).
Proof.
  rewrite require_non_empty_eq. split.
  - intros Hs%strip_empty. by rewrite decide_True.
  - intros Hs.
    assert (Str.strip value <> "") as Hne.
    { intros Hempty%strip_empty. congruence. }
    rewrite decide_False by done.
    destruct (strip_split value) as (pre & suf & Hv & Hpre & Hsuf).
    exists pre, (Str.strip value), suf.
    split_and!; try done. by apply strip_normalized.
Qed.

Lemma require_non_empty_spec_witness :
  all_space "" = true
  /\ all_space "  B 1 " = false
  /\ _require_non_empty "" "book_id" setUp
     = (Err (Raise ValidationError "book_id must be non-empty"), setUp)
  /\ exists pre result suf,
       _require_non_empty "  B 1 " "book_id" setUp = (Ok result, setUp)
       /\ "  B 1 " = pre +:+ result +:+ suf
       /\ all_space pre = true /\ all_space suf = true
       /\ normalized result.
Proof.
  assert (all_space "" = true) as Hblank by reflexivity.
  assert (all_space "  B 1 " = false) as Hid by reflexivity.
  split_and!; try assumption.
  - exact (proj1 (require_non_empty_spec "" "book_id" setUp) Hblank).
  - exact (proj2 (require_non_empty_spec "  B 1 " "book_id" setUp) Hid).
Defined.

(** ** Calls as transitions *)

Lemma exec_transition op s : transition s (exec op s).
Proof.
  destruct op; unfold exec, call; cbn [snd fst].
  - rewrite add_book_eq.
    destruct (decide (Str.strip book_id = "")); [constructor|].
    destruct (decide (Str.strip title = "")); [constructor|].
    destruct (decide (Str.strip author = "")); [constructor|].
    destruct (total_copies <=? 0) eqn:Hn; [constructor|].
    destruct (Dict.mem _ _) eqn:Hm; [constructor|]. cbn [snd].
    apply t_add_book; simpl; try done; try by apply strip_normalized.
    + by apply mem_false.
    + lia.
  - rewrite register_reader_eq.
    destruct (decide (Str.strip reader_id = "")); [constructor|].
    destruct (decide (Str.strip full_name = "")); [constructor|].
    destruct (Dict.mem _ _) eqn:Hm; [constructor|]. cbn [snd].
    apply t_register_reader; simpl; try done; try by apply strip_normalized.
    by apply mem_false.
  - rewrite get_book_state. constructor.
  - rewrite get_reader_state. constructor.
  - rewrite search_books_state. constructor.
  - destruct (borrow_book book_id reader_id borrow_date loan_days s)
      as [[loan|e] s1] eqn:Hcall; cbn [snd].
    + apply borrow_book_Ok in Hcall
        as (book & due & Hn & _ & _ & Hbook & Hreader & Hav & Hnew & Hdue & _
            & ->).
      apply add_days_Some in Hdue as [-> _].
      apply t_borrow; try done. lia.
    + apply borrow_book_Err in Hcall as ->. constructor.
  - rewrite return_book_eq. cbv zeta.
    destruct (decide (Str.strip book_id = "")); [constructor|].
    destruct (decide (Str.strip reader_id = "")); [constructor|].
    destruct (Dict.get _ (_active_loans s)) as [loan|] eqn:Hkey;
      [|constructor].
    destruct (heap s !! loan) as [l|] eqn:Hl; [|constructor].
    destruct (Dict.get _ (books s)) as [book|] eqn:Hbook; cbn [snd].
    + by apply t_return.
    + by eapply t_return_key_error.
  - constructor.
  - constructor.
  - rewrite get_reader_active_loans_state. constructor.
  - constructor.
Qed.

(** A property that every transition keeps holds along every run. *)
Lemma run_invariant (P : LibraryManager -> Prop) ops s :
  (forall s s', P s -> transition s s' -> P s') -> P s -> P (run ops s).
Proof.
  intros Hkeep. revert s.
  induction ops as [|op ops IH]; intros s Hs; simpl; [done|].
  apply IH. eapply Hkeep; [done | apply exec_transition].
Qed.

Lemma same_book_refl b : same_book b b.
Proof. by repeat split. Qed.

Lemma same_book_trans b1 b2 b3 :
  same_book b1 b2 -> same_book b2 b3 -> same_book b1 b3.
Proof.
  intros (? & ? & ? & ?) (? & ? & ? & ?). repeat split; congruence.
Qed.

Lemma same_loan_refl l : same_loan l l.
Proof. by repeat split. Qed.

Lemma same_loan_trans l1 l2 l3 :
  same_loan l1 l2 -> same_loan l2 l3 -> same_loan l1 l3.
Proof.
  intros (? & ? & ? & ?) (? & ? & ? & ?). repeat split; congruence.
Qed.

(** ** Books and readers stay *)

Lemma transition_book s s' k b :
  transition s s' ->
  Dict.get k (books s) = Some b ->
  exists b', Dict.get k (books s') = Some b' /\ same_book b b'.
Proof.
  intros Ht Hb.
  destruct Ht as [ |k0 book Hnew| | slot book r d due Hbook
                 | key loan l book d _ _ Hbook| ]; simpl;
    try (exists b; split; [done | apply same_book_refl]).
  - rewrite get_set. case_decide; [congruence|].
    exists b. split; [done | apply same_book_refl].
  - rewrite get_set. case_decide as Hk.
    + subst k. eexists. split; [done|].
      assert (book = b) as -> by congruence. by repeat split.
    + exists b. split; [done | apply same_book_refl].
  - rewrite get_set. case_decide as Hk.
    + subst k. eexists. split; [done|].
      assert (book = b) as -> by congruence. by repeat split.
    + exists b. split; [done | apply same_book_refl].
Qed.

Lemma run_book ops s k b :
  Dict.get k (books s) = Some b ->
  exists b', Dict.get k (books (run ops s)) = Some b' /\ same_book b b'.
Proof.
  intros Hb.
  apply (run_invariant
    (fun s' => exists b', Dict.get k (books s') = Some b' /\ same_book b b')).
  - intros s1 s2 (b1 & Hb1 & Hsame) Ht.
    destruct (transition_book s1 s2 k b1 Ht Hb1) as (b2 & Hb2 & Hsame2).
    exists b2. split; [done | by eapply same_book_trans].
  - exists b. split; [done | apply same_book_refl].
Qed.

Lemma transition_reader s s' k r :
  transition s s' ->
  Dict.get k (readers s) = Some r ->
  Dict.get k (readers s') = Some r.
Proof.
  intros Ht Hr. destruct Ht; simpl; try done.
  rewrite get_set. case_decide; congruence.
Qed.

Lemma run_reader ops s k r :
  Dict.get k (readers s) = Some r ->
  Dict.get k (readers (run ops s)) = Some r.
Proof.
  intros Hr.
  apply (run_invariant (fun s' => Dict.get k (readers s') = Some r));
    [|done].
  intros s1 s2 Hr1 Ht. by eapply transition_reader.
Qed.

Lemma add_book_Ok b t a n s book s1 :
  add_book b t a n s = (Ok book, s1) ->
  Str.strip b <> "" /\ Str.strip t <> "" /\ Str.strip a <> "" /\ 0 < n
  /\ Dict.get (Str.strip b) (books s) = None
  /\ book = Book.make (Str.strip b) (Str.strip t) (Str.strip a) n n
  /\ s1 = set_books (Dict.set (Str.strip b) book) s.
Proof.
  rewrite add_book_eq.
  destruct (decide (Str.strip b = "")); [done|].
  destruct (decide (Str.strip t = "")); [done|].
  destruct (decide (Str.strip a = "")); [done|].
  destruct (n <=? 0) eqn:Hn; [done|].
  destruct (Dict.mem _ _) eqn:Hm; [done|].
  intros [= <- <-]. apply mem_false in Hm. split_and!; try done. lia.
Qed.

Lemma register_reader_Ok r n s reader s1 :
  register_reader r n s = (Ok reader, s1) ->
  Str.strip r <> "" /\ Str.strip n <> ""
  /\ Dict.get (Str.strip r) (readers s) = None
  /\ reader = Reader.make (Str.strip r) (Str.strip n)
  /\ s1 = set_readers (Dict.set (Str.strip r) reader) s.
Proof.
  rewrite register_reader_eq.
  destruct (decide (Str.strip r = "")); [done|].
  destruct (decide (Str.strip n = "")); [done|].
  destruct (Dict.mem _ _) eqn:Hm; [done|].
  intros [= <- <-]. apply mem_false in Hm. by split_and!.
Qed.

(** X2: a book that [add_book] has stored is what [get_book] returns for
    its id, with or without whitespace around the id: the strings trimmed,
    [available_copies = total_copies]; and after any further calls
    [get_book] still finds a book under that id with the same id, title,
    author and [total_copies]: books are not deleted and only their
    [available_copies] changes. *)
Theorem add_book_then_get_book b t a n s book s1 ops b' :
  add_book b t a n s = (Ok book, s1) ->
  Str.strip b' = Str.strip b ->
  book = Book.make (Str.strip b) (Str.strip t) (Str.strip a) n n
  /\ get_book b' s1 = (Ok (Str.strip b, book), s1)
  /\ exists book',
       get_book b' (run ops s1) = (Ok (Str.strip b, book'), run ops s1)
       /\ same_book book book'.
Proof.
  intros (Hb & _ & _ & _ & _ & Hbook & ->)%add_book_Ok Hb'.
  assert (Dict.get (Str.strip b) (books (set_books
            (Dict.set (Str.strip b) book) s)) = Some book) as Hget.
  { simpl. rewrite get_set. by rewrite decide_True. }
  split_and!; [done | |].
  - rewrite get_book_eq, Hb', decide_False by done. by rewrite Hget.
  - destruct (run_book ops _ _ _ Hget) as (book' & Hget' & Hsame).
    exists book'. split; [|done].
    rewrite get_book_eq, Hb', decide_False by done. by rewrite Hget'.
Qed.

Lemma add_book_then_get_book_witness :
  let book := Book.make "B3" "Refactoring" "Martin Fowler" 3 3 in
  let s1 := snd (add_book " B3 " "Refactoring " "Martin Fowler" 3 setUp) in
  let ops := [BorrowBook "B3" "R1" 739676 7; SearchBooks "fowler"] in
  add_book " B3 " "Refactoring " "Martin Fowler" 3 setUp = (Ok book, s1)
  /\ Str.strip "B3  " = Str.strip " B3 "
  /\ get_book "B3  " s1 = (Ok ("B3", book), s1)
  /\ exists book',
       get_book "B3  " (run ops s1) = (Ok ("B3", book'), run ops s1)
       /\ same_book book book'.
Proof.
  intros book s1 ops.
  assert (add_book " B3 " "Refactoring " "Martin Fowler" 3 setUp
          = (Ok book, s1)) as Hadd by (vm_compute; reflexivity).
  assert (Str.strip "B3  " = Str.strip " B3 ") as Hid by reflexivity.
  split_and!; try assumption.
  - exact (proj1 (proj2 (add_book_then_get_book _ _ _ _ _ _ _ [] _
                           Hadd Hid))).
  - exact (proj2 (proj2 (add_book_then_get_book _ _ _ _ _ _ _ ops _
                           Hadd Hid))).
Defined.

(** X3: the id of a stored book stays taken: after [add_book] has
    succeeded, and whatever calls follow, [add_book] for the same id (up
    to surrounding whitespace) raises and changes nothing, so a stored
    book is never overwritten; with a title, an author and a number of
    copies that are valid, what it raises is [AlreadyExistsError]. *)
Theorem add_book_id_stays_taken b t a n s book s1 ops b' t' a' n' :
  add_book b t a n s = (Ok book, s1) ->
  Str.strip b' = Str.strip b ->
  (exists e, add_book b' t' a' n' (run ops s1) = (Err e, run ops s1))
  /\ (Str.strip t' <> "" -> Str.strip a' <> "" -> 0 < n' ->
      add_book b' t' a' n' (run ops s1)
      = (Err (Raise AlreadyExistsError
                ("Book with id '" +:+ Str.strip b +:+ "' already exists")),
         run ops s1)).
Proof.
  intros (Hb & _ & _ & _ & _ & Hbook & ->)%add_book_Ok Hb'.
  assert (Dict.get (Str.strip b) (books (set_books
            (Dict.set (Str.strip b) book) s)) = Some book) as Hget.
  { simpl. rewrite get_set. by rewrite decide_True. }
  destruct (run_book ops _ _ _ Hget) as (book' & Hget' & _).
  assert (Dict.mem (Str.strip b)
            (books (run ops (set_books (Dict.set (Str.strip b) book) s)))
          = true) as Hmem by (apply mem_get; by eexists).
  rewrite add_book_eq, Hb', decide_False, Hmem by done. split.
  - destruct (decide _); [by eexists|].
    destruct (decide _); [by eexists|].
    destruct (n' <=? 0); by eexists.
  - intros Ht Ha Hn. rewrite !decide_False by done.
    by replace (n' <=? 0) with false by lia.
Qed.

Lemma add_book_id_stays_taken_witness :
  let book := Book.make "B3" "Refactoring" "Martin Fowler" 3 3 in
  let s1 := snd (add_book " B3 " "Refactoring " "Martin Fowler" 3 setUp) in
  let ops := [BorrowBook "B3" "R1" 739676 7; ReturnBook "B3" "R1" 739680] in
  add_book " B3 " "Refactoring " "Martin Fowler" 3 setUp = (Ok book, s1)
  /\ Str.strip "B3" = Str.strip " B3 "
  /\ Str.strip "Other" <> "" /\ Str.strip "Author" <> "" /\ 0 < 1
  /\ add_book "B3" "Other" "Author" 1 (run ops s1)
     = (Err (Raise AlreadyExistsError "Book with id 'B3' already exists"),
        run ops s1).
Proof.
  intros book s1 ops.
  assert (add_book " B3 " "Refactoring " "Martin Fowler" 3 setUp
          = (Ok book, s1)) as Hadd by (vm_compute; reflexivity).
  assert (Str.strip "B3" = Str.strip " B3 ") as Hid by reflexivity.
  assert (Str.strip "Other" <> "") as Ht by (vm_compute; discriminate).
  assert (Str.strip "Author" <> "") as Ha by (vm_compute; discriminate).
  assert (0 < 1) as Hn by lia.
  split_and!; try assumption.
  exact (proj2 (add_book_id_stays_taken _ _ _ _ _ _ _ ops _ "Other" "Author"
                  1 Hadd Hid) Ht Ha Hn).
Defined.

(** X4: a reader that [register_reader] has stored is what [get_reader]
    returns for its id, with or without whitespace around the id, at once
    and after any further calls: readers are neither deleted nor
    changed. *)
Theorem register_reader_then_get_reader r n s reader s1 ops r' :
  register_reader r n s = (Ok reader, s1) ->
  Str.strip r' = Str.strip r ->
  reader = Reader.make (Str.strip r) (Str.strip n)
  /\ get_reader r' (run ops s1) = (Ok reader, run ops s1).
Proof.
  intros (Hr & _ & _ & Hreader & ->)%register_reader_Ok Hr'.
  split; [done|].
  rewrite get_reader_eq, Hr', decide_False by done.
  rewrite (run_reader ops _ (Str.strip r) reader); [done|].
  simpl. rewrite get_set. by rewrite decide_True.
Qed.

Lemma register_reader_then_get_reader_witness :
  let reader := Reader.make "R3" "Olga Ivanova" in
  let s1 := snd (register_reader "R3 " " Olga Ivanova" setUp) in
  let ops := [BorrowBook "B1" "R3" 739676 7; RegisterReader "R4" "Oleg"] in
  register_reader "R3 " " Olga Ivanova" setUp = (Ok reader, s1)
  /\ Str.strip " R3" = Str.strip "R3 "
  /\ get_reader " R3" (run ops s1) = (Ok reader, run ops s1).
Proof.
  intros reader s1 ops.
  assert (register_reader "R3 " " Olga Ivanova" setUp = (Ok reader, s1))
    as Hreg by (vm_compute; reflexivity).
  assert (Str.strip " R3" = Str.strip "R3 ") as Hid by reflexivity.
  split_and!; try assumption.
  exact (proj2 (register_reader_then_get_reader _ _ _ _ _ ops _ Hreg Hid)).
Defined.

(** X5: the id of a registered reader stays taken: after
    [register_reader] has succeeded, and whatever calls follow,
    [register_reader] for the same id (up to surrounding whitespace) raises
    and changes nothing; with a name that is not blank, what it raises is
    [AlreadyExistsError]. *)
Theorem register_reader_id_stays_taken r n s reader s1 ops r' n' :
  register_reader r n s = (Ok reader, s1) ->
  Str.strip r' = Str.strip r ->
  (exists e, register_reader r' n' (run ops s1) = (Err e, run ops s1))
  /\ (Str.strip n' <> "" ->
      register_reader r' n' (run ops s1)
      = (Err (Raise AlreadyExistsError
                ("Reader with id '" +:+ Str.strip r
                 +:+ "' already exists")),
         run ops s1)).
Proof.
  intros (Hr & _ & _ & Hreader & ->)%register_reader_Ok Hr'.
  assert (Dict.mem (Str.strip r)
            (readers (run ops (set_readers
                                 (Dict.set (Str.strip r) reader) s)))
          = true) as Hmem.
  { apply mem_get. exists reader. apply run_reader. simpl.
    rewrite get_set. by rewrite decide_True. }
  rewrite register_reader_eq, Hr', decide_False, Hmem by done. split.
  - destruct (decide _); by eexists.
  - intros Hn. by rewrite decide_False.
Qed.

Lemma register_reader_id_stays_taken_witness :
  let reader := Reader.make "R3" "Olga Ivanova" in
  let s1 := snd (register_reader "R3 " " Olga Ivanova" setUp) in
  let ops := [BorrowBook "B1" "R3" 739676 7] in
  register_reader "R3 " " Olga Ivanova" setUp = (Ok reader, s1)
  /\ Str.strip " R3" = Str.strip "R3 "
  /\ Str.strip "Somebody" <> ""
  /\ register_reader " R3" "Somebody" (run ops s1)
     = (Err (Raise AlreadyExistsError "Reader with id 'R3' already exists"),
        run ops s1).
Proof.
  intros reader s1 ops.
  assert (register_reader "R3 " " Olga Ivanova" setUp = (Ok reader, s1))
    as Hreg by (vm_compute; reflexivity).
  assert (Str.strip " R3" = Str.strip "R3 ") as Hid by reflexivity.
  assert (Str.strip "Somebody" <> "") as Hn by (vm_compute; discriminate).
  split_and!; try assumption.
  exact (proj2 (register_reader_id_stays_taken _ _ _ _ _ ops _ "Somebody"
                  Hreg Hid) Hn).
Defined.

(** ** What is stored is normalized *)

Lemma transition_normalized s s' :
  stored_normalized s -> transition s s' -> stored_normalized s'.
Proof.
  intros [Hbooks Hreaders] Ht.
  destruct Ht as [ |k0 book Hnew Hid Hk Htitle Hauthor Htot _
                 |k0 reader Hnew Hid Hk Hname
                 |slot book r d due Hbook _ _ _ _
                 |key loan l book d _ _ Hbook| ]; try done.
  - split; [|done]. intros k b. simpl. rewrite get_set.
    case_decide; [|by apply Hbooks]. by intros [= <-]; subst k.
  - split; [done|]. intros k r. simpl. rewrite get_set.
    case_decide; [|by apply Hreaders]. by intros [= <-]; subst k.
  - split; [|done]. intros k b. simpl. rewrite get_set.
    case_decide; [|by apply Hbooks]. intros [= <-]. subst k.
    by apply (Hbooks slot book).
  - split; [|done]. intros k b. simpl. rewrite get_set.
    case_decide; [|by apply Hbooks]. intros [= <-]. subst k.
    by apply (Hbooks (Loan.book_id l) book).
Qed.

(** X6: in every state that the public methods can reach, each stored
    book sits under its own [book_id], which like its title and its author
    is not empty and has no whitespace at either end, and has
    [total_copies > 0]; each stored reader sits under its own [reader_id],
    normalized in the same way like its [full_name]. *)
Theorem stored_data_is_normalized s : reachable s -> stored_normalized s.
Proof.
  induction 1 as [rate s Hinit|op s _ IH].
  - apply init_eq in Hinit as ->. by split.
  - eapply transition_normalized; [done | apply exec_transition].
Qed.

Lemma stored_data_is_normalized_witness :
  reachable setUp /\ stored_normalized setUp.
Proof.
  assert (reachable setUp) as Hs by apply reachable_setUp.
  split; [exact Hs | exact (stored_data_is_normalized setUp Hs)].
Defined.

(** ** The rate *)




(** ** The history *)

Lemma transition_history s s' :
  transition s s' ->
  _loan_history s `prefix_of` _loan_history s'
  /\ forall loan l,
       heap s !! loan = Some l ->
       exists l',
         heap s' !! loan = Some l' /\ same_loan l l'
         /\ (Loan.is_active l = false -> Loan.is_active l' = false).
Proof.
  assert (forall loan l, heap s !! loan = Some l ->
            exists l', heap s !! loan = Some l' /\ same_loan l l'
              /\ (Loan.is_active l = false -> Loan.is_active l' = false))
    as Hsame.
  { intros loan l Hl. exists l. split_and!; [done | apply same_loan_refl
                                             | done]. }
  assert (forall loan0 l0 d loan l,
            heap s !! loan0 = Some l0 ->
            heap s !! loan = Some l ->
            exists l',
              <[loan0 := Loan.with_returned_date (Some d) l0]> (heap s)
                !! loan = Some l'
              /\ same_loan l l'
              /\ (Loan.is_active l = false -> Loan.is_active l' = false))
    as Hwrite.
  { intros loan0 l0 d loan l Hl0 Hl.
    destruct (decide (loan0 = loan)) as [->|Hne].
    - exists (Loan.with_returned_date (Some d) l0).
      rewrite list_lookup_insert_eq by (by eapply lookup_lt_Some).
      assert (l0 = l) as -> by congruence. by repeat split.
    - exists l. rewrite list_lookup_insert_ne by done.
      split_and!; [done | apply same_loan_refl | done]. }
  destruct 1; simpl; try (split; [done | exact Hsame]).
  - split; [by apply prefix_app_r|].
    intros loan l Hl. exists l.
    split_and!; [by apply lookup_app_l_Some | apply same_loan_refl | done].
  - split; [done|]. intros loan0 l0 Hl0. by eapply Hwrite.
  - split; [done|]. intros loan0 l0 Hl0. by eapply Hwrite.
Qed.

(** X8: the loan history only grows at its end, whatever is called: the
    history before a sequence of calls is the beginning of the history
    after it, and each loan it holds is still the same loan afterwards,
    with the same book, reader, borrow date and due date; only its
    [returned_date] may have been written, and a loan that was not active
    is not active afterwards. *)
Theorem loan_history_only_grows s ops :
  _loan_history s `prefix_of` _loan_history (run ops s)
  /\ forall loan l,
       heap s !! loan = Some l ->
       exists l',
         heap (run ops s) !! loan = Some l' /\ same_loan l l'
         /\ (Loan.is_active l = false -> Loan.is_active l' = false).
Proof.
  apply (run_invariant (fun s' =>
    _loan_history s `prefix_of` _loan_history s'
    /\ forall loan l,
         heap s !! loan = Some l ->
         exists l',
           heap s' !! loan = Some l' /\ same_loan l l'
           /\ (Loan.is_active l = false -> Loan.is_active l' = false))).
  - intros s1 s2 [Hpre Hloans] Ht.
    destruct (transition_history s1 s2 Ht) as [Hpre' Hloans'].
    split; [by etrans|].
    intros loan l Hl.
    destruct (Hloans loan l Hl) as (l1 & Hl1 & Hsame1 & Hact1).
    destruct (Hloans' loan l1 Hl1) as (l2 & Hl2 & Hsame2 & Hact2).
    exists l2. split_and!; [done | by eapply same_loan_trans | auto].
  - split; [done|]. intros loan l Hl. exists l.
    split_and!; [done | apply same_loan_refl | done].
Qed.

Lemma loan_history_only_grows_witness :
  let s := exec (BorrowBook "B2" "R2" 739676 7) setUp in
  let ops := [BorrowBook "B1" "R1" 739680 14; ReturnBook "B2" "R2" 739685] in
  let l := Loan.make "B2" "R2" 739676 739683 None in
  heap s !! 0%nat = Some l
  /\ _loan_history s `prefix_of` _loan_history (run ops s)
  /\ exists l',
       heap (run ops s) !! 0%nat = Some l' /\ same_loan l l'
       /\ (Loan.is_active l = false -> Loan.is_active l' = false).
Proof.
  intros s ops l.
  assert (heap s !! 0%nat = Some l) as Hl by reflexivity.
  split_and!; [exact Hl | |].
  - exact (proj1 (loan_history_only_grows s ops)).
  - exact (proj2 (loan_history_only_grows s ops) 0%nat l Hl).
Defined.

(** ** The active loans are the active loans of the history *)

Lemma filter_both {A} (f g : A -> bool) l :
  List.filter (fun x => g x && f x) l = List.filter g (List.filter f l).
Proof.
  induction l as [|x l IH]; simpl; [done|].
  destruct (f x) eqn:Hf, (g x) eqn:Hg; simpl; by rewrite ?Hg, IH.
Qed.

Lemma values_set_fresh {K V} `{EqDecision K} (d : dict K V) k v :
  Dict.get k d = None -> Dict.values (Dict.set k v d) = Dict.values d ++ [v].
Proof.
  intros Hget. unfold Dict.values. by rewrite set_fresh, fmap_app.
Qed.

(** Deleting a key whose value no other key has takes that value out of
    the values and leaves the others in their order. *)
Lemma values_del {K} `{EqDecision K} (d : dict K nat) k v :
  NoDup (Dict.keys d) ->
  Dict.get k d = Some v ->
  (forall k' v', (k', v') ∈ d -> v' = v -> k' = k) ->
  Dict.values (Dict.del k d)
  = List.filter (fun v' => negb (v' =? v)%nat) (Dict.values d).
Proof.
  induction d as [|[k0 v0] d IH]; simpl; [done|].
  intros [Hk0 Hnd]%NoDup_cons Hget Hinj.
  destruct (decide (k = k0)) as [->|Hk].
  - injection Hget as ->. rewrite Nat.eqb_refl. simpl.
    clear IH Hnd. induction d as [|[k1 v1] d IHd]; simpl; [done|].
    assert (v1 <> v) as Hv1.
    { intros ->. apply Hk0.
      rewrite (Hinj k1 v); [apply list_elem_of_here | | done].
      apply list_elem_of_further, list_elem_of_here. }
    apply Nat.eqb_neq in Hv1. rewrite Hv1. simpl. f_equal.
    apply IHd.
    + intros Hin. apply Hk0. by apply list_elem_of_further.
    + intros k' v' Hin. apply Hinj.
      apply elem_of_cons in Hin as [->|Hin]; [apply list_elem_of_here|].
      by do 2 apply list_elem_of_further.
  - assert (v0 <> v) as Hv0.
    { intros ->. apply Hk. symmetry.
      apply (Hinj k0 v); [apply list_elem_of_here | done]. }
    apply Nat.eqb_neq in Hv0. rewrite Hv0. simpl. f_equal.
    apply IH; [done | done |].
    intros k' v' Hin. apply Hinj. by apply list_elem_of_further.
Qed.

Lemma transition_active_in_history s s' :
  wf s -> active_in_history s -> transition s s' -> active_in_history s'.
Proof.
  unfold active_in_history. intros Hwf Hinv Ht.
  destruct Ht as [ | | |slot book r d due Hbook _ _ Hnew _
                 |key loan l book d Hkey Hl Hbook
                 |key loan l d Hkey Hl Hbook]; try done.
  - simpl. rewrite values_set_fresh by done.
    rewrite List.filter_app, Hinv. f_equal.
    + apply filter_ext_in. intros loan Hin%list_elem_of_In.
      rewrite (wf_history s Hwf) in Hin.
      apply list_elem_of_In, in_seq in Hin. unfold is_active_at. simpl.
      rewrite lookup_app_l by lia. done.
    + simpl. unfold is_active_at at 1. simpl.
      by rewrite list_lookup_middle.
  - simpl. rewrite (values_del _ key loan Hwf.(wf_active_nodup s) Hkey).
    + rewrite Hinv, <- filter_both. apply filter_ext. intros loan0.
      unfold is_active_at. simpl.
      destruct (Nat.eqb_spec loan0 loan) as [->|Hne]; simpl.
      * rewrite list_lookup_insert_eq by (by eapply lookup_lt_Some). done.
      * rewrite list_lookup_insert_ne by done. done.
    + intros k' v' Hin ->.
      destruct (active_entry s k' loan Hwf Hin) as (l1 & Hl1 & Hb1 & Hr1 & _).
      destruct (wf_active s Hwf key loan Hkey) as (l2 & Hl2 & Hb2 & Hr2 & _).
      assert (l1 = l2) as -> by congruence.
      destruct k', key. simpl in *. congruence.
  - exfalso.
    destruct (wf_active s Hwf key loan Hkey) as (l' & Hl' & Hb & _ & _ & Hbk).
    assert (l' = l) as -> by congruence.
    rewrite <- Hb, Hbook in Hbk. by destruct Hbk.
Qed.

Lemma reachable_active_in_history s : reachable s -> active_in_history s.
Proof.
  induction 1 as [rate s Hinit|op s Hs IH].
  - by apply init_eq in Hinit as ->.
  - eapply transition_active_in_history;
      [by apply wf_reachable | done | apply exec_transition].
Qed.

(** X9: in every state that the public methods can reach,
    [get_active_loans()] returns the loans of [get_loan_history()] that are
    active, all of them and in the order of the history; and the history
    holds no loan twice. *)
Theorem active_loans_are_the_active_of_history s :
  reachable s ->
  exists active history,
    get_active_loans s = (Ok active, s)
    /\ get_loan_history s = (Ok history, s)
    /\ active = List.filter (is_active_at s) history
    /\ NoDup history.
Proof.
  intros Hs. exists (Dict.values (_active_loans s)), (_loan_history s).
  split_and!; [done | done | by apply reachable_active_in_history |].
  rewrite (wf_history s (wf_reachable s Hs)). apply NoDup_seq.
Qed.

Lemma active_loans_are_the_active_of_history_witness :
  let s := run [BorrowBook "B2" "R2" 739676 7; BorrowBook "B1" "R1" 739680 14;
                ReturnBook "B2" "R2" 739685] setUp in
  reachable s
  /\ exists active history,
       get_active_loans s = (Ok active, s)
       /\ get_loan_history s = (Ok history, s)
       /\ active = List.filter (is_active_at s) history
       /\ NoDup history.
Proof.
  intros s.
  assert (reachable s) as Hs by apply reachable_run, reachable_setUp.
  split; [exact Hs | exact (active_loans_are_the_active_of_history s Hs)].
Defined.

(** ** When [return_book] succeeds *)

(** X10: in every state that the public methods can reach, [return_book]
    raises [ValidationError] for a blank book id, then for a blank reader
    id, raises [BusinessRuleError] when no active loan is stored under the
    trimmed pair, and succeeds in every other case (it never fails after
    having written): the loan gets its [returned_date], the pair leaves
    the active-loan index, and the book of the loan gets one more
    available copy. *)
Theorem return_book_succeeds_iff_active s b r d :
  reachable s ->
  (Str.strip b = "" ->
   return_book b r d s
   = (Err (Raise ValidationError "book_id must be non-empty"), s))
  /\ (Str.strip b <> "" -> Str.strip r = "" ->
      return_book b r d s
      = (Err (Raise ValidationError "reader_id must be non-empty"), s))
  /\ (Str.strip b <> "" -> Str.strip r <> "" ->
      Dict.get (Str.strip b, Str.strip r) (_active_loans s) = None ->
      return_book b r d s
      = (Err (Raise BusinessRuleError
                "Active loan for this book and reader was not found"), s))
  /\ (forall loan,
      Str.strip b <> "" -> Str.strip r <> "" ->
      Dict.get (Str.strip b, Str.strip r) (_active_loans s) = Some loan ->
      exists l book info s',
        heap s !! loan = Some l
        /\ Dict.get (Str.strip b) (books s) = Some book
        /\ return_book b r d s = (Ok info, s')
        /\ overdue_days info = Z.max (d - Loan.due_date l) 0
        /\ heap s' !! loan = Some (Loan.with_returned_date (Some d) l)
        /\ Dict.get (Str.strip b, Str.strip r) (_active_loans s') = None
        /\ Dict.get (Str.strip b) (books s')
           = Some (Book.with_available_copies
                     (Book.available_copies book + 1) book)).
Proof.
  intros Hwf%wf_reachable. rewrite return_book_eq. cbv zeta. split_and!.
  - intros Hb. by rewrite decide_True.
  - intros Hb Hr. by rewrite decide_False, decide_True.
  - intros Hb Hr Hkey. by rewrite !decide_False, Hkey.
  - intros loan Hb Hr Hkey. rewrite !decide_False, Hkey by done.
    destruct (wf_active s Hwf _ _ Hkey)
      as (l & Hl & Hid & _ & _ & [book Hbook]).
    simpl in Hid, Hbook. rewrite Hl, Hid, Hbook.
    exists l, book. eexists _, _. split_and!; try done; simpl.
    + apply list_lookup_insert_eq. by eapply lookup_lt_Some.
    + rewrite get_del by apply Hwf. by rewrite decide_True.
    + rewrite Hid, get_set. by rewrite decide_True.
Qed.

Lemma return_book_succeeds_iff_active_witness :
  let s := exec (BorrowBook "B2" "R2" 739676 7) setUp in
  reachable s
  /\ Str.strip " B2" <> "" /\ Str.strip "R2 " <> ""
  /\ Dict.get (Str.strip " B2", Str.strip "R2 ") (_active_loans s)
     = Some 0%nat
  /\ exists l book info s',
       heap s !! 0%nat = Some l
       /\ Dict.get (Str.strip " B2") (books s) = Some book
       /\ return_book " B2" "R2 " 739685 s = (Ok info, s')
       /\ overdue_days info = Z.max (739685 - Loan.due_date l) 0
       /\ heap s' !! 0%nat = Some (Loan.with_returned_date (Some 739685) l)
       /\ Dict.get (Str.strip " B2", Str.strip "R2 ") (_active_loans s')
          = None
       /\ Dict.get (Str.strip " B2") (books s')
          = Some (Book.with_available_copies
                    (Book.available_copies book + 1) book).
Proof.
  intros s.
  assert (reachable s) as Hs by apply reachable_call, reachable_setUp.
  assert (Str.strip " B2" <> "") as Hb by (vm_compute; discriminate).
  assert (Str.strip "R2 " <> "") as Hr by (vm_compute; discriminate).
  assert (Dict.get (Str.strip " B2", Str.strip "R2 ") (_active_loans s)
          = Some 0%nat) as Hkey by reflexivity.
  split_and!; try assumption.
  exact (proj2 (proj2 (proj2
           (return_book_succeeds_iff_active s " B2" "R2 " 739685 Hs)))
           0%nat Hb Hr Hkey).
Defined.

(** ** The active loans of a reader *)

Lemma get_reader_active_loans_eq reader_id s :
  get_reader_active_loans reader_id s
  = if decide (Str.strip reader_id = "")
    then (Err (Raise ValidationError "reader_id must be non-empty"), s)
    else match Dict.get (Str.strip reader_id) (readers s) with
    | None =>
        (Err (Raise NotFoundError
                ("Reader with id '" +:+ Str.strip reader_id
                 +:+ "' not found")), s)
    | Some _ =>
        (Ok (List.filter
               (fun loan =>
                  match heap s !! loan with
                  | Some l =>
                      bool_decide (Loan.reader_id l = Str.strip reader_id)
                  | None => false
                  end)
               (Dict.values (_active_loans s))), s)
    end.
Proof.
  unfold get_reader_active_loans, bind at 1. rewrite require_non_empty_eq.
  case_decide as Hr; [reflexivity|].
  unfold bind at 1. rewrite get_reader_eq, strip_idemp.
  rewrite decide_False by done.
  destruct (Dict.get _ _); reflexivity.
Qed.

(** X11: [get_reader_active_loans] raises [ValidationError] for a blank
    id and [NotFoundError] for an id, trimmed, that no reader has;
    otherwise, in every state that the public methods can reach, it
    changes nothing and returns the loans that the active-loan index holds
    under a pair whose reader half is the trimmed id, all of them and no
    other. *)
Theorem get_reader_active_loans_spec s r :
  reachable s ->
  (Str.strip r = "" ->
   get_reader_active_loans r s
   = (Err (Raise ValidationError "reader_id must be non-empty"), s))
  /\ (Str.strip r <> "" ->
      Dict.get (Str.strip r) (readers s) = None ->
      exists msg,
        get_reader_active_loans r s = (Err (Raise NotFoundError msg), s))
  /\ (Str.strip r <> "" ->
      is_Some (Dict.get (Str.strip r) (readers s)) ->
      exists found,
        get_reader_active_loans r s = (Ok found, s)
        /\ forall loan,
             loan ∈ found
             <-> exists book_id,
                   Dict.get (book_id, Str.strip r) (_active_loans s)
                   = Some loan).
Proof.
  intros Hwf%wf_reachable. rewrite get_reader_active_loans_eq. split_and!.
  - intros Hr. by rewrite decide_True.
  - intros Hr Hreader. rewrite decide_False, Hreader by done. by eexists.
  - intros Hr [reader Hreader]. rewrite decide_False, Hreader by done.
    eexists. split; [done|]. intros loan.
    rewrite list_elem_of_In, filter_In, <- list_elem_of_In.
    unfold Dict.values. rewrite list_elem_of_fmap. split.
    + intros [([key loan'] & -> & Hin) Hmatch]. simpl in Hmatch.
      destruct (active_entry s key loan' Hwf Hin) as (l & Hl & _ & Hrd & _).
      rewrite Hl in Hmatch. apply bool_decide_eq_true in Hmatch.
      exists (fst key). apply elem_get; [apply Hwf|].
      destruct key as [kb kr]. simpl in *.
      by rewrite <- Hmatch, Hrd.
    + intros [book_id Hkey]. split.
      * exists ((book_id, Str.strip r), loan).
        split; [done | by apply get_Some_elem].
      * destruct (wf_active s Hwf _ _ Hkey) as (l & Hl & _ & Hrd & _).
        rewrite Hl. by apply bool_decide_eq_true.
Qed.

Lemma get_reader_active_loans_spec_witness :
  let s := run [BorrowBook "B2" "R2" 739676 7; BorrowBook "B1" "R1" 739680 14;
                BorrowBook "B1" "R2" 739681 14] setUp in
  reachable s
  /\ Str.strip " R2 " <> ""
  /\ is_Some (Dict.get (Str.strip " R2 ") (readers s))
  /\ exists found,
       get_reader_active_loans " R2 " s = (Ok found, s)
       /\ forall loan,
            loan ∈ found
            <-> exists book_id,
                  Dict.get (book_id, Str.strip " R2 ") (_active_loans s)
                  = Some loan.
Proof.
  intros s.
  assert (reachable s) as Hs by apply reachable_run, reachable_setUp.
  assert (Str.strip " R2 " <> "") as Hr by (vm_compute; discriminate).
  assert (is_Some (Dict.get (Str.strip " R2 ") (readers s))) as Hreader
    by (vm_compute; by eexists).
  split_and!; try assumption.
  exact (proj2 (proj2 (get_reader_active_loans_spec s " R2 " Hs))
           Hr Hreader).
Defined.

(** ** When [borrow_book] refuses *)

(** X12: in every state that the public methods can reach, for a positive
    number of days, a stored book and a registered reader, [borrow_book]
    raises "No available copies for this book" exactly when the book has as
    many active loans as it has copies. *)
Theorem borrow_book_refuses_when_all_copies_are_out s b r d n book :
  reachable s ->
  0 < n ->
  Str.strip b <> "" ->
  Dict.get (Str.strip b) (books s) = Some book ->
  Str.strip r <> "" ->
  is_Some (Dict.get (Str.strip r) (readers s)) ->
  borrow_book b r d n s
  = (Err (Raise BusinessRuleError "No available copies for this book"), s)
  <-> active_loans_of_book (Book.book_id book) s = Book.total_copies book.
Proof.
  intros Hwf%wf_reachable Hn Hb Hbook Hr [reader Hreader].
  destruct (wf_book s Hwf _ _ Hbook) as (Hid & Hpos & Hsum).
  rewrite <- active_loans_of_book_count in Hsum by done.
  rewrite Hid. rewrite borrow_book_eq.
  replace (n <=? 0) with false by lia.
  rewrite decide_False by done. rewrite Hbook.
  rewrite decide_False by done. rewrite Hreader.
  destruct (Book.available_copies book <=? 0) eqn:Hav.
  - split; [intros _; lia | done].
  - split; [|intros Hall; lia].
    destruct (Dict.mem _ _); [done|].
    by destruct (Date.add_days d n).
Qed.

Lemma borrow_book_refuses_when_all_copies_are_out_witness :
  let s := exec (BorrowBook "B2" "R2" 739676 7) setUp in
  let book := Book.make "B2" "The Pragmatic Programmer" "Andrew Hunt" 1 0 in
  reachable s
  /\ 0 < 14
  /\ Str.strip "B2" <> ""
  /\ Dict.get (Str.strip "B2") (books s) = Some book
  /\ Str.strip "R1" <> ""
  /\ is_Some (Dict.get (Str.strip "R1") (readers s))
  /\ active_loans_of_book (Book.book_id book) s = Book.total_copies book
  /\ borrow_book "B2" "R1" 739680 14 s
     = (Err (Raise BusinessRuleError "No available copies for this book"),
        s).
Proof.
  intros s book.
  assert (reachable s) as Hs by apply reachable_call, reachable_setUp.
  assert (0 < 14) as Hn by lia.
  assert (Str.strip "B2" <> "") as Hb by (vm_compute; discriminate).
  assert (Dict.get (Str.strip "B2") (books s) = Some book) as Hbook
    by reflexivity.
  assert (Str.strip "R1" <> "") as Hr by (vm_compute; discriminate).
  assert (is_Some (Dict.get (Str.strip "R1") (readers s))) as Hreader
    by (vm_compute; by eexists).
  assert (active_loans_of_book (Book.book_id book) s
          = Book.total_copies book) as Hall by reflexivity.
  split_and!; try assumption.
  exact (proj2 (borrow_book_refuses_when_all_copies_are_out
                  s "B2" "R1" 739680 14 book Hs Hn Hb Hbook Hr Hreader)
           Hall).
Defined.

(** X13: a reader cannot borrow the same book twice: right after a
    successful [borrow_book], [borrow_book] for the same book (its id up to
    surrounding whitespace) and the same [reader_id], for any date and any
    positive number of days, raises [BusinessRuleError] and changes
    nothing. *)
Theorem borrow_book_twice_is_refused s b r d n loan s1 b' d' n' :
  borrow_book b r d n s = (Ok loan, s1) ->
  Str.strip b' = Str.strip b ->
  0 < n' ->
  exists msg,
    borrow_book b' r d' n' s1 = (Err (Raise BusinessRuleError msg), s1).
Proof.
  intros (book & due & _ & Hb & Hr & Hbook & [reader Hreader] & _ & _ & _
          & _ & ->)%borrow_book_Ok Hb' Hn'.
  rewrite borrow_book_eq. replace (n' <=? 0) with false by lia.
  rewrite Hb'. rewrite decide_False by done. cbn [books readers borrowed].
  rewrite get_set, decide_True by done.
  rewrite decide_False by done. rewrite Hreader.
  destruct (_ <=? 0); [by eexists|].
  cbn [Book.book_id Book.with_available_copies _active_loans].
  replace (Dict.mem _ _) with true; [by eexists|].
  symmetry. apply mem_get. cbn [_active_loans borrowed].
  rewrite get_set. rewrite decide_True by done. by eexists.
Qed.

Lemma borrow_book_twice_is_refused_witness :
  let s1 := snd (borrow_book "B1" "R1" 739676 7 setUp) in
  borrow_book "B1" "R1" 739676 7 setUp = (Ok 0%nat, s1)
  /\ Str.strip " B1 " = Str.strip "B1"
  /\ 0 < 14
  /\ exists msg,
       borrow_book " B1 " "R1" 739680 14 s1
       = (Err (Raise BusinessRuleError msg), s1).
Proof.
  intros s1.
  assert (borrow_book "B1" "R1" 739676 7 setUp = (Ok 0%nat, s1)) as Hborrow
    by (vm_compute; reflexivity).
  assert (Str.strip " B1 " = Str.strip "B1") as Hid by reflexivity.
  assert (0 < 14) as Hn by lia.
  split_and!; try assumption.
  exact (borrow_book_twice_is_refused _ _ _ _ _ _ _ " B1 " 739680 14
           Hborrow Hid Hn).
Defined.

(** X14: in every state that the public methods can reach, a book
    borrowed under a reader id without surrounding whitespace can be
    returned at once, on any date: [return_book] succeeds with
    [overdue_days = max(0, return_date - (borrow_date + loan_days))] and
    the fine for them, and the books are again as they were before the
    loan. *)
Theorem borrow_then_return_succeeds s b r d n loan s1 d2 :
  reachable s ->
  Str.strip r = r ->
  borrow_book b r d n s = (Ok loan, s1) ->
  exists s2,
    return_book b r d2 s1
    = (Ok (mkReturnInfo (overdue_days_spec (d + n) d2)
             (fine_spec (fine_per_day s) (d + n) d2)), s2)
    /\ books s2 = books s.
Proof.
  intros Hwf%wf_reachable Htrim Hborrow.
  pose proof Hborrow as Hs1.
  apply borrow_book_Ok in Hs1
    as (book & due & _ & Hb & Hr & Hbook & _ & _ & Hnew & Hdue & -> & ->).
  destruct (wf_book s Hwf _ _ Hbook) as (Hid & _ & _).
  apply add_days_Some in Hdue as [-> _].
  destruct (return_book b r d2
              (borrowed (Str.strip b) book r d (d + n) s))
    as [[info|e] s2] eqn:Hreturn.
  - exists s2.
    destruct (borrow_return_round_trip s b r d n d2 _ _ info s2
                Hwf Htrim Hborrow Hreturn) as (Hbooks & _).
    split; [|done].
    apply return_book_Ok in Hreturn
      as (loan & l & book' & _ & _ & Hkey & Hl & _ & -> & _).
    rewrite Htrim in Hkey. simpl in Hkey, Hl.
    rewrite Hid, get_set, decide_True in Hkey by done.
    injection Hkey as <-.
    rewrite list_lookup_middle in Hl by done. injection Hl as <-.
    simpl. rewrite fine_spec_eq. unfold overdue_days_spec.
    by rewrite (Z.max_comm 0).
  - exfalso. rewrite return_book_eq in Hreturn. cbv zeta in Hreturn.
    rewrite Htrim, !decide_False in Hreturn by (by rewrite ?Htrim in * ).
    cbn [_active_loans borrowed heap books] in Hreturn.
    rewrite Hid, get_set, decide_True in Hreturn by done.
    rewrite list_lookup_middle in Hreturn by done.
    cbn [Loan.book_id] in Hreturn.
    rewrite get_set, decide_True in Hreturn by done. done.
Qed.

Lemma borrow_then_return_succeeds_witness :
  let s1 := snd (borrow_book "B2" "R2" 739676 7 setUp) in
  reachable setUp
  /\ Str.strip "R2" = "R2"
  /\ borrow_book "B2" "R2" 739676 7 setUp = (Ok 0%nat, s1)
  /\ exists s2,
       return_book "B2" "R2" 739685 s1
       = (Ok (mkReturnInfo (overdue_days_spec (739676 + 7) 739685)
                (fine_spec (fine_per_day setUp) (739676 + 7) 739685)), s2)
       /\ books s2 = books setUp.
Proof.
  intros s1.
  assert (reachable setUp) as Hs by apply reachable_setUp.
  assert (Str.strip "R2" = "R2") as Htrim by reflexivity.
  assert (borrow_book "B2" "R2" 739676 7 setUp = (Ok 0%nat, s1)) as Hborrow
    by (vm_compute; reflexivity).
  split_and!; try assumption.
  exact (borrow_then_return_succeeds _ _ _ _ _ _ _ 739685 Hs Htrim Hborrow).
Defined.

(** ** No fine for a return on time *)

(** X15: for a return on or before the due date, at any finite rate,
    [calculate_fine] equals [0.0], and a successful [return_book] of a loan
    that is not overdue returns [overdue_days = 0] and a [fine_amount]
    equal to [0.0]; for a later return [overdue_days] is the number of
    days after the due date. *)
Theorem no_fine_when_on_time s :
  is_finite (fine_per_day s) = true ->
  (forall due_date return_date,
     return_date <= due_date ->
     exists fine,
       calculate_fine due_date return_date s = (Ok fine, s)
       /\ (fine =? 0)%float = true)
  /\ (forall b r return_date info s' loan l,
        return_book b r return_date s = (Ok info, s') ->
        Dict.get (Str.strip b, Str.strip r) (_active_loans s) = Some loan ->
        heap s !! loan = Some l ->
        (return_date <= Loan.due_date l ->
         overdue_days info = 0 /\ (fine_amount info =? 0)%float = true)
        /\ (Loan.due_date l < return_date ->
            overdue_days info = return_date - Loan.due_date l)).
Proof.
  intros Hfin.
  destruct (zero_times_finite _ Hfin) as [sign Hzero].
  destruct (round2_zero _ _ Hzero) as [Hround Heq].
  split.
  - intros due_date return_date Hle. eexists. split; [reflexivity|].
    unfold Date.days_between.
    replace (Z.max (return_date - due_date) 0) with 0 by lia.
    by rewrite Hround.
  - intros b r return_date info s' loan l Hreturn Hkey Hl.
    apply return_book_Ok in Hreturn
      as (loan' & l' & book & _ & _ & Hkey' & Hl' & _ & -> & _).
    assert (loan' = loan) as -> by congruence.
    assert (l' = l) as -> by congruence. simpl. split.
    + intros Hle.
      replace (Z.max (return_date - Loan.due_date l) 0) with 0 by lia.
      by rewrite Hround.
    + intros Hlt. lia.
Qed.

Lemma no_fine_when_on_time_witness :
  is_finite (fine_per_day setUp) = true
  /\ 739710 <= 739716
  /\ exists fine,
       calculate_fine 739716 739710 setUp = (Ok fine, setUp)
       /\ (fine =? 0)%float = true.
Proof.
  assert (is_finite (fine_per_day setUp) = true) as Hfin by reflexivity.
  assert (739710 <= 739716) as Hle by lia.
  split_and!; try assumption.
  exact (proj1 (no_fine_when_on_time setUp Hfin) 739716 739710 Hle).
Defined.

(** ** Loans refer to what is stored *)

Lemma rstrip_fixed s :
  (forall c, last_char s = Some c -> Str.isspace c = false) ->
  Str.rstrip s = s.
Proof.
  induction s as [|c s IH]; [done|]. intros Hlast.
  destruct s as [|c' s'].
  - simpl. by rewrite (Hlast c).
  - change (Str.rstrip (String c (String c' s'))) with
      (match Str.rstrip (String c' s') with
       | EmptyString =>
           if Str.isspace c then EmptyString else String c EmptyString
       | r => String c r
       end).
    rewrite IH; [done|]. intros c0 Hc0. by apply Hlast.
Qed.

(** Trimming a normalized string gives it back. *)
Lemma normalized_strip s : normalized s -> Str.strip s = s.
Proof.
  intros (Hne & Hfirst & Hlast). unfold Str.strip.
  rewrite lstrip_fixed; [by apply rstrip_fixed|].
  destruct s as [|c s]; [done|]. simpl. by apply Hfirst.
Qed.

Lemma transition_loans_refer s s' :
  wf s -> loans_refer_to_stored s -> transition s s' ->
  loans_refer_to_stored s'.
Proof.
  intros Hwf Hinv Ht loan l Hl.
  assert (forall l0,
            is_Some (Dict.get (Loan.book_id l0) (books s))
            /\ is_Some (Dict.get (Str.strip (Loan.reader_id l0)) (readers s))
            /\ Loan.borrow_date l0 < Loan.due_date l0 ->
            is_Some (Dict.get (Loan.book_id l0) (books s'))
            /\ is_Some (Dict.get (Str.strip (Loan.reader_id l0))
                          (readers s'))
            /\ Loan.borrow_date l0 < Loan.due_date l0) as Hkeep.
  { intros l0 ([b0 Hb0] & [r0 Hr0] & Hdates). split_and!; [| |done].
    - destruct (transition_book s s' _ _ Ht Hb0) as (b' & Hb' & _).
      by eexists.
    - exists r0. by eapply transition_reader. }
  destruct Ht as [ | | |slot book r d due Hbook Hreader _ _ Hdue
                 |key loan0 l0 book d _ Hl0 _
                 |key loan0 l0 d _ Hl0 _];
    try (apply Hkeep, (Hinv loan l Hl)).
  - simpl in Hl. apply lookup_app_Some in Hl as [Hl|[_ Hl]].
    + by apply Hkeep, (Hinv loan l).
    + apply list_lookup_singleton_Some in Hl as [_ <-]. simpl.
      destruct (wf_book s Hwf _ _ Hbook) as (Hid & _).
      split_and!; [|done|done].
      rewrite Hid, get_set, decide_True by done. by eexists.
  - simpl in Hl. apply list_lookup_insert_Some in Hl as [(-> & <- & _)|[_ Hl]].
    + apply (Hkeep (Loan.with_returned_date (Some d) l0)). simpl.
      by apply (Hinv loan l0).
    + by apply Hkeep, (Hinv loan l).
  - simpl in Hl. apply list_lookup_insert_Some in Hl as [(-> & <- & _)|[_ Hl]].
    + apply (Hkeep (Loan.with_returned_date (Some d) l0)). simpl.
      by apply (Hinv loan l0).
    + by apply Hkeep, (Hinv loan l).
Qed.

(** X16: in every state that the public methods can reach, every loan of
    the history, active or returned, is an object that names a book that
    [get_book] finds and a reader that [get_reader] finds, and its due date
    is after its borrow date. *)
Theorem loans_refer_to_stored_books_and_readers s loan :
  reachable s ->
  loan ∈ _loan_history s ->
  exists l,
    heap s !! loan = Some l
    /\ (exists book,
          get_book (Loan.book_id l) s = (Ok (Loan.book_id l, book), s))
    /\ (exists reader, get_reader (Loan.reader_id l) s = (Ok reader, s))
    /\ Loan.borrow_date l < Loan.due_date l.
Proof.
  intros Hs Hin.
  assert (is_Some (heap s !! loan)) as [l Hl].
  { rewrite (wf_history s (wf_reachable s Hs)) in Hin.
    apply list_elem_of_In, in_seq in Hin. apply lookup_lt_is_Some. lia. }
  exists l. split; [done|].
  assert (loans_refer_to_stored s) as Hinv.
  { clear loan l Hl Hin. induction Hs as [rate s Hinit|op s Hs IH].
    - apply init_eq in Hinit as ->. by intros loan l Hl.
    - eapply transition_loans_refer;
        [by apply wf_reachable | done | apply exec_transition]. }
  destruct (Hinv loan l Hl) as ([book Hbook] & [reader Hreader] & Hdates).
  destruct (stored_data_is_normalized s Hs) as [Hbooks Hreaders].
  destruct (Hbooks _ _ Hbook) as (_ & Hnorm & _).
  destruct (Hreaders _ _ Hreader) as (_ & (Hrne & _) & _).
  pose proof (normalized_strip _ Hnorm) as Htrim.
  destruct Hnorm as (Hne & _).
  split_and!; [| |done].
  - exists book. rewrite get_book_eq, Htrim, decide_False by done.
    by rewrite Hbook.
  - exists reader. rewrite get_reader_eq, decide_False by done.
    by rewrite Hreader.
Qed.

Lemma loans_refer_to_stored_books_and_readers_witness :
  let s := run [BorrowBook "B2" " R2" 739676 7; ReturnBook "B2" " R2" 739685]
             setUp in
  reachable s
  /\ 0%nat ∈ _loan_history s
  /\ exists l,
       heap s !! 0%nat = Some l
       /\ (exists book,
             get_book (Loan.book_id l) s = (Ok (Loan.book_id l, book), s))
       /\ (exists reader, get_reader (Loan.reader_id l) s = (Ok reader, s))
       /\ Loan.borrow_date l < Loan.due_date l.
Proof.
  intros s.
  assert (reachable s) as Hs by apply reachable_run, reachable_setUp.
  assert (0%nat ∈ _loan_history s) as Hin
    by (vm_compute; apply list_elem_of_here).
  split; [exact Hs | split; [exact Hin |]].
  exact (loans_refer_to_stored_books_and_readers s 0%nat Hs Hin).
Defined.
